(** * Data-quality scoring engine of [data-profiling.py]

    A shallow embedding of [calcular_scores] (lines 153-329) and of the
    aggregation [score_final] (line 380), with the properties the
    specification states about the five criteria; and of what surrounds
    them: the two detectors run on an uploaded CSV file (lines 135-151),
    the stars and the criteria offered for analysis (lines 420 and 525),
    and [extract_section] (lines 634-651).

    Modelling conventions.
    - Text is a [string] of bytes.  Case, digit and white-space classes
      are the ASCII ones; bytes above 127 are uncased and are neither
      digits nor white space.
    - Python's [float] and NumPy's [float64] are modelled by exact
      rationals extended with [NaN]: rounding error of binary64 is not
      represented.
    - Python exceptions are values of [exn], carried by [result].
    - pandas' pseudo-random sampling and its rendering of numbers as text
      are parameters of the development, gathered in [pandas_env]. *)

From Stdlib Require Import List String Ascii Bool Arith ZArith QArith Qround Qabs.
From Stdlib Require Import DecimalString Lia Lqa.
Import ListNotations.
Close Scope Q_scope.


(* ================================================================== *)
(** * Text *)
(* ================================================================== *)

Module Text.

Definition code (c : ascii) : nat := nat_of_ascii c.

Definition between (lo hi : nat) (c : ascii) : bool :=
  (lo <=? code c)%nat && (code c <=? hi)%nat.

(** [\d] *)
Definition is_digit : ascii -> bool := between 48 57.
Definition is_upper_char : ascii -> bool := between 65 90.
Definition is_lower_char : ascii -> bool := between 97 122.

(** the characters [str.strip()] removes *)
Definition is_space (c : ascii) : bool :=
  between 9 13 c || between 28 32 c.

Definition lower_char (c : ascii) : ascii :=
  if is_upper_char c then ascii_of_nat (code c + 32) else c.

Definition chars : string -> list ascii := list_ascii_of_string.
Definition text : list ascii -> string := string_of_list_ascii.

(** [str.lower()] *)
Definition lower (s : string) : string := text (map lower_char (chars s)).

(** [str.islower()]: some cased character, and no upper-case one *)
Definition islower (s : string) : bool :=
  existsb is_lower_char (chars s) && negb (existsb is_upper_char (chars s)).

(** [str.isupper()] *)
Definition isupper (s : string) : bool :=
  existsb is_upper_char (chars s) && negb (existsb is_lower_char (chars s)).

Fixpoint lstrip (s : list ascii) : list ascii :=
  match s with
  | c :: r => if is_space c then lstrip r else s
  | [] => []
  end.

(** [str.strip()] *)
Definition strip (s : string) : string :=
  text (rev (lstrip (rev (lstrip (chars s))))).

(** [needle in hay] *)
Fixpoint contains (needle hay : string) : bool :=
  String.prefix needle hay
  || match hay with
     | EmptyString => false
     | String _ hay' => contains needle hay'
     end.

(** [any(k in s for k in ks)] *)
Definition contains_any (ks : list string) (s : string) : bool :=
  existsb (fun k => contains k s) ks.

(** [str.replace(r'\D', '', regex=True)] *)
Definition only_digits (s : string) : string :=
  text (filter is_digit (chars s)).

(** [', '.join(xs)] *)
Fixpoint join (sep : string) (xs : list string) : string :=
  match xs with
  | [] => EmptyString
  | [x] => x
  | x :: rest => (x ++ sep ++ join sep rest)%string
  end.

(** ** The two regular expressions

    Both patterns are anchored, and neither needs backtracking: they
    are matched by one left-to-right pass. *)

(** [$] matches at the end of the text and before a final newline. *)
Definition at_end (s : list ascii) : bool :=
  match s with
  | [] => true
  | [c] => (code c =? 10)%nat
  | _ => false
  end.

Fixpoint skip_digits (s : list ascii) : list ascii :=
  match s with
  | c :: r => if is_digit c then skip_digits r else s
  | [] => []
  end.

(** [\d+]: what is left after the longest run of digits, if there is one *)
Definition digits1 (s : list ascii) : option (list ascii) :=
  match s with
  | c :: r => if is_digit c then Some (skip_digits r) else None
  | [] => None
  end.

Definition is_decimal_mark (c : ascii) : bool :=
  (code c =? 46)%nat || (code c =? 44)%nat.

(** [^-?\d+([.,]\d+)?$] *)
Definition match_number (s : string) : bool :=
  let body :=
    match chars s with
    | c :: r => if (code c =? 45)%nat then r else c :: r
    | [] => []
    end in
  match digits1 body with
  | None => false
  | Some rest =>
      at_end rest
      || match rest with
         | c :: frac =>
             is_decimal_mark c
             && match digits1 frac with
                | Some rest' => at_end rest'
                | None => false
                end
         | [] => false
         end
  end.

Inductive token := D | Sep.

(** [/] or [-] *)
Definition is_date_sep (c : ascii) : bool :=
  (code c =? 47)%nat || (code c =? 45)%nat.

Fixpoint match_shape (shape : list token) (s : list ascii) : bool :=
  match shape, s with
  | [], rest => at_end rest
  | D :: shape', c :: r => is_digit c && match_shape shape' r
  | Sep :: shape', c :: r => is_date_sep c && match_shape shape' r
  | _ :: _, [] => false
  end.

(** [^\d{2}[/-]\d{2}[/-]\d{4}$|^\d{4}[/-]\d{2}[/-]\d{2}$] *)
Definition match_date (s : string) : bool :=
  match_shape [D; D; Sep; D; D; Sep; D; D; D; D] (chars s)
  || match_shape [D; D; D; D; Sep; D; D; Sep; D; D] (chars s).

End Text.

(* ================================================================== *)
(** * Python and NumPy numbers *)
(* ================================================================== *)

Inductive exn := ZeroDivisionError | ValueError.

Inductive result (A : Type) : Type :=
| Ok (a : A)
| Raise (e : exn).
Arguments Ok {A} a.
Arguments Raise {A} e.

Definition bind {A B} (m : result A) (k : A -> result B) : result B :=
  match m with
  | Ok a => k a
  | Raise e => Raise e
  end.

Notation "x <- m ;; k" := (bind m (fun x => k))
  (at level 61, m at next level, right associativity).

Definition Qltb (a b : Q) : bool := negb (Qle_bool b a).

(** A float: a rational or [NaN]. *)
Inductive float := NaN | Fin (q : Q).

Definition flift (op : Q -> Q -> Q) (a b : float) : float :=
  match a, b with
  | Fin x, Fin y => Fin (op x y)
  | _, _ => NaN
  end.

Definition fadd := flift Qplus.
Definition fsub := flift Qminus.
Definition fmul := flift Qmult.
Definition fdiv := flift Qdiv.

(** Comparisons with [NaN] are false. *)
Definition flt (a b : float) : bool :=
  match a, b with
  | Fin x, Fin y => Qltb x y
  | _, _ => false
  end.
Definition fgt (a b : float) : bool := flt b a.

Definition of_Z (z : Z) : float := Fin (inject_Z z).
Definition of_nat (n : nat) : float := of_Z (Z.of_nat n).

(** [a / b] on Python integers *)
Definition truediv (a b : Z) : result float :=
  if (b =? 0)%Z then Raise ZeroDivisionError else Ok (Fin (inject_Z a / inject_Z b)).

(** [x / n] for a Python float [x] and an integer [n] *)
Definition fdiv_int (x : float) (n : Z) : result float :=
  if (n =? 0)%Z then Raise ZeroDivisionError else Ok (fdiv x (of_Z n)).

(** [round(q)] on a finite float: to the nearest integer, ties to even *)
Definition round_half_even (q : Q) : Z :=
  let f := Qfloor q in
  match (q - inject_Z f ?= 1 # 2)%Q with
  | Lt => f
  | Gt => (f + 1)%Z
  | Eq => if Z.even f then f else (f + 1)%Z
  end.

(** [round(x)]: [round(nan)] raises [ValueError] *)
Definition round (x : float) : result Z :=
  match x with
  | NaN => Raise ValueError
  | Fin q => Ok (round_half_even q)
  end.

(** [round(x, 1)] *)
Definition round1 (q : Q) : Q := (inject_Z (round_half_even (q * 10)) / 10)%Q.

Definition count_true (bs : list bool) : nat := List.length (filter (fun b => b) bs).

Definition Qsum (xs : list Q) : Q := fold_right Qplus 0%Q xs.

(** [Series.mean()] of a Boolean series: [NaN] when it is empty *)
Definition mean_bool (bs : list bool) : float :=
  match bs with
  | [] => NaN
  | _ => Fin (inject_Z (Z.of_nat (count_true bs)) / inject_Z (Z.of_nat (List.length bs)))
  end.

Definition finite (xs : list float) : list Q :=
  flat_map (fun x => match x with Fin q => [q] | NaN => [] end) xs.

(** [Series.mean()] of a float series: [NaN] entries are skipped, and the
    mean of nothing is [NaN] *)
Definition nanmean (xs : list float) : float :=
  match finite xs with
  | [] => NaN
  | qs => Fin (Qsum qs / inject_Z (Z.of_nat (List.length qs)))
  end.

(* ================================================================== *)
(** * The dataset *)
(* ================================================================== *)

(** The numeric dtypes [is_numeric_dtype] accepts.  [KBool] is numeric for
    [is_numeric_dtype] but is not selected by [np.number]. *)
Inductive numkind := KInt | KFloat | KBool.

(** A column's dtype together with its cells; [None] is a missing cell
    ([NaN], [None] or [NaT]).  Cells of an [object] column are given by
    their text, cells of a [datetime64] column by their rendering. *)
Inductive series :=
| Numeric (k : numkind) (vals : list (option Q))
| Object (vals : list (option string))
| Datetime (vals : list (option string))
| Other (vals : list (option string)).

Record column := { col_name : string; col_data : series }.

(** A DataFrame: its index length and its columns, in order. *)
Record dataframe := { nrows : nat; columns : list column }.

Inductive cell := CNull | CNum (q : Q) | CTxt (s : string).

Definition cell_of {A} (inj : A -> cell) (v : option A) : cell :=
  match v with
  | Some a => inj a
  | None => CNull
  end.

Definition cells (s : series) : list cell :=
  match s with
  | Numeric _ vals => map (cell_of CNum) vals
  | Object vals | Datetime vals | Other vals => map (cell_of CTxt) vals
  end.

Definition col_cells (c : column) : list cell := cells (col_data c).


(** [dropna()] *)
Definition dropna {A} (vals : list (option A)) : list A :=
  flat_map (fun v => match v with Some a => [a] | None => [] end) vals.

Definition isnull (c : cell) : bool :=
  match c with
  | CNull => true
  | _ => false
  end.

Definition cell_eqb (a b : cell) : bool :=
  match a, b with
  | CNull, CNull => true
  | CNum x, CNum y => Qeq_bool x y
  | CTxt s, CTxt t => String.eqb s t
  | _, _ => false
  end.

Fixpoint row_eqb (r s : list cell) : bool :=
  match r, s with
  | [], [] => true
  | a :: r', b :: s' => cell_eqb a b && row_eqb r' s'
  | _, _ => false
  end.

Definition row (df : dataframe) (i : nat) : list cell :=
  map (fun c => nth i (col_cells c) CNull) (columns df).

Definition rows (df : dataframe) : list (list cell) :=
  map (row df) (seq 0 (nrows df)).

(** [df.empty] *)
Definition empty (df : dataframe) : bool :=
  (nrows df =? 0)%nat || (List.length (columns df) =? 0)%nat.

(** [keep='first']: a row is marked when an earlier row equals it. *)
Fixpoint duplicated_from (seen rs : list (list cell)) : list bool :=
  match rs with
  | [] => []
  | r :: rs' => existsb (row_eqb r) seen :: duplicated_from (r :: seen) rs'
  end.

(** [df.duplicated()]; pandas returns an empty series for an empty frame *)
Definition duplicated (df : dataframe) : list bool :=
  if empty df then [] else duplicated_from [] (rows df).

Definition len {A} (xs : list A) : Z := Z.of_nat (List.length xs).

Local Open Scope string_scope.

(* ================================================================== *)
(** * 1. Completude *)
(* ================================================================== *)

(** [df.isnull().mean()], a series indexed by the column names *)
Definition null_pct (df : dataframe) : list (string * float) :=
  map (fun c => (col_name c, mean_bool (map isnull (col_cells c)))) (columns df).

Definition completude (df : dataframe) : result (Z * list string) :=
  let col_completude_ruim :=
    map fst (filter (fun p => fgt (snd p) (Fin (3 # 10))) (null_pct df)) in
  let completude_score :=
    fmul (fsub (of_Z 1) (nanmean (map snd (null_pct df)))) (of_Z 100) in
  r <- round (fdiv completude_score (of_Z 20)) ;;
  Ok (Z.max 1 r, col_completude_ruim).

(* ================================================================== *)
(** * 2. Unicidade *)
(* ================================================================== *)

Definition unicidade (df : dataframe) : result (Z * list string) :=
  let diagnostico :=
    if fgt (mean_bool (duplicated df)) (Fin (2 # 10))
    then ["⚠️ Muitos registros duplicados"] else [] in
  let unicidade_score :=
    fmul (fsub (of_Z 1) (mean_bool (duplicated df))) (of_Z 100) in
  r <- round (fdiv unicidade_score (of_Z 20)) ;;
  Ok (Z.max 1 r, diagnostico).

(* ================================================================== *)
(** * What pandas and NumPy provide *)
(* ================================================================== *)

(** The two library behaviours the engine relies on and that are not
    spelled out here: how [astype(str)] renders a number, and NumPy's
    pseudo-random generator.  [choice g n k] draws [k] positions out of
    [n] without replacement and returns the advanced generator. *)
Record pandas_env := {
  num_str : numkind -> Q -> string;
  rng : Type;
  RandomState : Z -> rng;
  choice : rng -> nat -> nat -> list nat * rng
}.

Section Engine.

Variable E : pandas_env.

(** [Series.sample(k, random_state=...)]: with a seed, a fresh generator is
    built from it and the global one is left alone; without, the global
    generator [g] is used and advanced. *)
Definition sample {A} (xs : list A) (k : nat) (random_state : option Z)
    (g : rng E) : list A * rng E :=
  let take idx := flat_map (fun i => match nth_error xs i with
                                     | Some x => [x]
                                     | None => []
                                     end) idx in
  match random_state with
  | Some seed =>
      (take (fst (choice E (RandomState E seed) (List.length xs) k)), g)
  | None =>
      let (idx, g') := choice E g (List.length xs) k in (take idx, g')
  end.

(** [serie.dropna().astype(str)] *)
Definition dropna_str (s : series) : list string :=
  match s with
  | Numeric k vals => map (num_str E k) (dropna vals)
  | Object vals | Datetime vals | Other vals => dropna vals
  end.

(* ================================================================== *)
(** * 3. Consistência *)
(* ================================================================== *)

(** The body of the loop over the columns: whether [col] is appended to
    [colunas_inconsistentes]. *)
Definition inconsistente (col : column) : result bool :=
  match dropna_str (col_data col) with
  | [] => Ok false
  | serie =>
      let valores := map Text.strip serie in
      match col_data col with
      | Numeric _ _ =>
          let valores_invalidos :=
            filter (fun v => negb (Text.match_number v)) valores in
          f <- truediv (len valores_invalidos) (len valores) ;;
          Ok (fgt f (Fin (1 # 10)))
      | Datetime _ =>
          let valores_invalidos :=
            filter (fun v => negb (Text.match_date v)) valores in
          f <- truediv (len valores_invalidos) (len valores) ;;
          Ok (fgt f (Fin (1 # 10)))
      | Object _ =>
          let numeros_detectados := map Text.match_number valores in
          let datas_detectadas := map Text.match_date valores in
          Ok (fgt (mean_bool numeros_detectados) (Fin (1 # 2))
              || fgt (mean_bool datas_detectadas) (Fin (1 # 2)))
      | Other _ => Ok false
      end
  end.

Fixpoint consistencia_loop (cols : list column)
    (colunas_inconsistentes : list string) : result (list string) :=
  match cols with
  | [] => Ok colunas_inconsistentes
  | col :: rest =>
      b <- inconsistente col ;;
      consistencia_loop rest
        (if b then (colunas_inconsistentes ++ [col_name col])%list
         else colunas_inconsistentes)
  end.

Definition consistencia (df : dataframe) : result (Z * list string) :=
  colunas_inconsistentes <- consistencia_loop (columns df) [] ;;
  f <- truediv (len colunas_inconsistentes) (len (columns df)) ;;
  let tipo_correto_pct := fsub (of_Z 1) f in
  r <- round (fmul tipo_correto_pct (of_Z 5)) ;;
  Ok (Z.max 1 r, colunas_inconsistentes).

(* ================================================================== *)
(** * 4. Precisão *)
(* ================================================================== *)

Fixpoint insert_sorted (x : Q) (xs : list Q) : list Q :=
  match xs with
  | [] => [x]
  | y :: ys => if Qle_bool x y then x :: xs else y :: insert_sorted x ys
  end.

Definition sort_values (xs : list Q) : list Q := fold_right insert_sorted [] xs.

(** [Series.quantile(q)]: missing cells are dropped, interpolation is
    linear, and the quantile of nothing is [NaN]. *)
Definition quantile (vals : list (option Q)) (q : Q) : float :=
  match sort_values (dropna vals) with
  | [] => NaN
  | v =>
      let pos := (inject_Z (Z.of_nat (List.length v - 1)) * q)%Q in
      let j := Z.to_nat (Qfloor pos) in
      let a := nth j v 0%Q in
      let b := nth (S j) v a in
      Fin (a + (b - a) * (pos - inject_Z (Qfloor pos)))%Q
  end.

(** [(df[col] < Q1 - 1.5 * IQR) | (df[col] > Q3 + 1.5 * IQR)] *)
Definition outliers (vals : list (option Q)) : list bool :=
  let Q1 := quantile vals (1 # 4) in
  let Q3 := quantile vals (3 # 4) in
  let IQR := fsub Q3 Q1 in
  let lo := fsub Q1 (fmul (Fin (3 # 2)) IQR) in
  let hi := fadd Q3 (fmul (Fin (3 # 2)) IQR) in
  map (fun v => match v with
                | Some x => flt (Fin x) lo || fgt (Fin x) hi
                | None => false
                end) vals.

(** [df.select_dtypes(include=np.number).columns], each with its values *)
Definition numeric_cols (df : dataframe) : list (string * list (option Q)) :=
  flat_map (fun c => match col_data c with
                     | Numeric KInt vals | Numeric KFloat vals => [(col_name c, vals)]
                     | _ => []
                     end) (columns df).

Fixpoint precisao_loop (cols : list (string * list (option Q)))
    (outlier_score : float) (outlier_cols : list string) : float * list string :=
  match cols with
  | [] => (outlier_score, outlier_cols)
  | (col, vals) :: rest =>
      let m := mean_bool (outliers vals) in
      precisao_loop rest
        (fadd outlier_score (fsub (of_Z 1) m))
        (if fgt m (Fin (3 # 10)) then (outlier_cols ++ [col])%list else outlier_cols)
  end.

(** The divisor [len(numeric_cols)] is positive under the guard. *)
Definition precisao (df : dataframe) : result (Z * list string) :=
  match numeric_cols df with
  | [] => Ok (5%Z, [])
  | cols =>
      let (outlier_score, outlier_cols) := precisao_loop cols (of_Z 0) [] in
      r <- round (fmul (fdiv outlier_score (of_Z (len cols))) (of_Z 5)) ;;
      Ok (Z.max 1 r, outlier_cols)
  end.

(* ================================================================== *)
(** * 5. Integridade *)
(* ================================================================== *)

(** The three per-column counters of the loop. *)
Record tally := {
  col_checks : nat;
  col_passes : nat;
  col_problemas : list string
}.

Definition tally0 : tally :=
  {| col_checks := 0; col_passes := 0; col_problemas := [] |}.

(** [col_passes += 1] *)
Definition passed (t : tally) : tally :=
  {| col_checks := col_checks t;
     col_passes := col_passes t + 1;
     col_problemas := col_problemas t |}.

(** [col_problemas.append(p)] *)
Definition problem (p : string) (t : tally) : tally :=
  {| col_checks := col_checks t;
     col_passes := col_passes t;
     col_problemas := (col_problemas t ++ [p])%list |}.

(** [col_checks += 1] *)
Definition checked (t : tally) : tally :=
  {| col_checks := col_checks t + 1;
     col_passes := col_passes t;
     col_problemas := col_problemas t |}.

Definition Qmin2 (a b : Q) : Q := if Qle_bool a b then a else b.

(** [serie.min()]: [NaN] when every cell is missing *)
Definition series_min (vals : list (option Q)) : float :=
  match dropna vals with
  | [] => NaN
  | x :: xs => Fin (fold_left Qmin2 xs x)
  end.

Definition positive_keywords : list string :=
  ["valor"; "preço"; "quantidade"; "saldo"].
Definition document_keywords : list string :=
  ["cpf"; "cnpj"; "telefone"; "cep"; "id"; "cod"; "cd"].
Definition id_keywords : list string := ["id"; "cod"; "cd"].
Definition date_keywords : list string :=
  ["data"; "dt"; "date"; "nascimento"; "inicio"; "fim"].

(** Checks 1 and 2, on a numeric column *)
Definition checar_numerica (col_lower : string) (vals : list (option Q))
    (t : tally) : tally :=
  let t1 :=
    if Text.contains_any positive_keywords col_lower then
      checked (if flt (series_min vals) (of_Z 0)
               then problem "valores negativos indevidos" t
               else passed t)
    else t in
  if Text.contains "binário" col_lower || Text.contains "flag" col_lower then
    let valores := dropna vals in
    checked (if negb (forallb (fun v => Qeq_bool v 0 || Qeq_bool v 1) valores)
             then problem "valores fora de 0/1 em campo binário" t1
             else passed t1)
  else t1.

(** Check 3 *)
Definition checar_capitalizacao (smp : list string) (t : tally) : tally :=
  checked (if existsb Text.islower smp || existsb Text.isupper smp
           then problem "capitalização inconsistente" t
           else passed t).

Definition expected_length (col_lower : string) : option nat :=
  if Text.contains "cpf" col_lower then Some 11
  else if Text.contains "cnpj" col_lower then Some 14
  else if Text.contains "cep" col_lower then Some 8
  else if Text.contains "telefone" col_lower then Some 10
  else None.

(** [Series.nunique()] on lengths *)
Definition nunique (xs : list nat) : nat := List.length (nodup Nat.eq_dec xs).

(** Check 4 *)
Definition checar_codigos (col col_lower : string) (smp : list string)
    (t : tally) : tally :=
  if Text.contains_any document_keywords col_lower then
    let cleaned := map Text.only_digits smp in
    let lens := map String.length cleaned in
    checked
      (if Text.contains_any id_keywords col_lower then
         if (1 <? nunique lens)%nat
         then problem "tamanhos inconsistentes em códigos/IDs" t
         else passed t
       else
         match expected_length col_lower with
         | Some n =>
             if negb (forallb (fun l => (l =? n)%nat) lens)
             then problem ("tamanho incorreto para " ++ col) t
             else passed t
         | None => t
         end)
  else t.

(** Check 5 *)
Definition checar_datas (col_lower : string) (smp : list string)
    (t : tally) : tally :=
  if Text.contains_any date_keywords col_lower then
    let valid_dates := map Text.match_date smp in
    checked (if flt (mean_bool valid_dates) (Fin (9 # 10))
             then problem "datas fora do padrão" t
             else passed t)
  else t.

(** The checks of one column, by dtype. *)
Definition checar_coluna (col : column) (g : rng E) : tally * rng E :=
  let col_lower := Text.lower (col_name col) in
  match col_data col with
  | Numeric _ vals => (checar_numerica col_lower vals tally0, g)
  | Object vals =>
      let serie := dropna vals in
      let (smp, g') :=
        sample serie (Nat.min 100 (List.length serie)) (Some 42%Z) g in
      (checar_datas col_lower smp
         (checar_codigos (col_name col) col_lower smp
            (checar_capitalizacao smp tally0)), g')
  | Datetime _ => (checked (passed tally0), g)
  | Other _ => (tally0, g)
  end.

Definition detalhe (col : string) (problemas : list string) : string :=
  col ++ ": " ++ Text.join ", " problemas.

Fixpoint integridade_loop (cols : list column) (integridade_score : float)
    (total_checks : nat) (integridade_detalhes : list string) (g : rng E)
    : result (float * nat * list string) * rng E :=
  match cols with
  | [] => (Ok (integridade_score, total_checks, integridade_detalhes), g)
  | col :: rest =>
      let (t, g') := checar_coluna col g in
      if (0 <? col_checks t)%nat then
        match truediv (Z.of_nat (col_passes t)) (Z.of_nat (col_checks t)) with
        | Raise e => (Raise e, g')
        | Ok f =>
            integridade_loop rest (fadd integridade_score f) (S total_checks)
              (match col_problemas t with
               | [] => integridade_detalhes
               | ps => (integridade_detalhes ++ [detalhe (col_name col) ps])%list
               end) g'
        end
      else integridade_loop rest integridade_score total_checks
             integridade_detalhes g'
  end.

Definition integridade (df : dataframe) (g : rng E)
    : result (Z * list string) * rng E :=
  let (looped, g') := integridade_loop (columns df) (of_Z 0) 0 [] g in
  (acc <- looped ;;
   let '(integridade_score, total_checks, integridade_detalhes) := acc in
   match total_checks with
   | O => Ok (5%Z, integridade_detalhes)
   | _ =>
       m <- fdiv_int integridade_score (Z.of_nat total_checks) ;;
       r <- round (fmul m (of_Z 5)) ;;
       Ok (Z.max 1 r, integridade_detalhes)
   end, g').

(* ================================================================== *)
(** * The whole evaluation and the overall score *)
(* ================================================================== *)

(** The two dictionaries [calcular_scores] returns, in insertion order. *)
Record report := {
  scores : list (string * Z);
  diagnostico_colunas : list (string * list string)
}.

Definition criterios : list string :=
  ["Completude"; "Unicidade"; "Consistência"; "Precisão"; "Integridade"].

Definition calcular_scores (df : dataframe) (g : rng E) : result report * rng E :=
  match (c <- completude df ;;
         u <- unicidade df ;;
         k <- consistencia df ;;
         p <- precisao df ;;
         Ok (c, u, k, p)) with
  | Raise e => (Raise e, g)
  | Ok (c, u, k, p) =>
      let (i, g') := integridade df g in
      (i <- i ;;
       let vals := [c; u; k; p; i] in
       Ok {| scores := combine criterios (map fst vals);
             diagnostico_colunas := combine criterios (map snd vals) |}, g')
  end.

End Engine.

(** [round(np.mean(list(scores.values())), 1)] *)
Definition score_final (scores : list (string * Z)) : float :=
  match scores with
  | [] => NaN
  | _ => Fin (round1 (Qsum (map (fun kv => inject_Z (snd kv)) scores)
                      / inject_Z (len scores)))
  end.

(* ================================================================== *)
(** * An instance of the library parameters *)
(* ================================================================== *)

(** The decimal digits of a fraction [0 <= q < 1], at most [n] of them;
    trailing zeros are not produced. *)
Fixpoint frac_digits (n : nat) (q : Q) : string :=
  match n with
  | O => ""
  | S n' =>
      if Qeq_bool q 0 then ""
      else
        let d := Qfloor (q * 10) in
        NilZero.string_of_int (Z.to_int d)
        ++ frac_digits n' (q * 10 - inject_Z d)
  end.

(** Integers in decimal, Booleans as [True] and [False], floats with their
    decimal expansion ([2.0], [-0.25]). *)
Definition render (k : numkind) (q : Q) : string :=
  match k with
  | KBool => if Qeq_bool q 0 then "False" else "True"
  | KInt => NilZero.string_of_int (Z.to_int (Qfloor q))
  | KFloat =>
      let a := Qabs q in
      let frac := (a - inject_Z (Qfloor a))%Q in
      (if Qltb q 0 then "-" else "")
      ++ NilZero.string_of_int (Z.to_int (Qfloor a)) ++ "."
      ++ (if Qeq_bool frac 0 then "0" else frac_digits 17 frac)
  end.

(** A generator with no state whose draw is the first [k] positions. *)
Definition first_positions : pandas_env :=
  {| num_str := render;
     rng := unit;
     RandomState := fun _ => tt;
     choice := fun g _ k => (seq 0 k, g) |}.

(* ================================================================== *)
(** * The criteria as the specification words them *)
(* ================================================================== *)

Module Spec.

Definition ratio (k n : nat) : Q :=
  (inject_Z (Z.of_nat k) / inject_Z (Z.of_nat n))%Q.

(** The 0..1 fraction mapped on the 1..5 scale of sections 4.1 and 4.2:
    [max(1, round((1 - x) * 100 / 20))]. *)
Definition score_of_fraction (x : Q) : Z :=
  Z.max 1 (round_half_even ((1 - x) * 100 / 20)%Q).

(** The scale of sections 4.3 to 4.5: [max(1, round(x * 5))]. *)
Definition score_of_share (x : Q) : Z :=
  Z.max 1 (round_half_even (x * 5)%Q).

Definition mean (xs : list Q) : Q := (Qsum xs / inject_Z (len xs))%Q.




(** Row [i] equals, on all columns, a row before it. *)
Definition repeats_earlier (rs : list (list cell)) (i : nat) : bool :=
  existsb (row_eqb (nth i rs [])) (firstn i rs).

(** The rows that repeat an earlier one, over the row count. *)
Definition duplicate_fraction (df : dataframe) : Q :=
  ratio (count_true (map (repeats_earlier (rows df)) (seq 0 (nrows df))))
        (nrows df).

Definition uniqueness_flag : list string :=
  ["⚠️ Muitos registros duplicados"%string].

(** Share of the values that satisfy [p]. *)
Definition share (p : string -> bool) (valores : list string) : Q :=
  ratio (count_true (map p valores)) (List.length valores).





(** Every check counted either passed or left a problem. *)
Definition balanced (t : tally) : Prop :=
  col_checks t = (col_passes t + List.length (col_problemas t))%nat.

Section WithEnv.

Variable E : pandas_env.

(** The stringified, trimmed non-null values of a column. *)
Definition valores (c : column) : list string :=
  map Text.strip (dropna_str E (col_data c)).

Definition fails (p : string -> bool) (v : string) : bool := negb (p v).

(** Section 4.3: when a column is flagged as inconsistent. *)
Definition flagged (c : column) : bool :=
  match valores c with
  | [] => false
  | vs =>
      match col_data c with
      | Numeric _ _ => Qltb (1 # 10) (share (fails Text.match_number) vs)
      | Datetime _ => Qltb (1 # 10) (share (fails Text.match_date) vs)
      | Object _ =>
          Qltb (1 # 2) (share Text.match_number vs)
          || Qltb (1 # 2) (share Text.match_date vs)
      | Other _ => false
      end
  end.

Definition flagged_columns (df : dataframe) : list string :=
  map col_name (filter flagged (columns df)).

(** The sample of up to 100 non-null values drawn with seed 42. *)
Definition fixed_seed_sample (vals : list (option string)) : list string :=
  let serie := dropna vals in
  fst (sample E serie (Nat.min 100 (List.length serie)) (Some 42%Z)
         (RandomState E 42)).

(** The checks of section 4.5 that apply to a column, counted. *)
Definition column_tally (c : column) : tally :=
  let col_lower := Text.lower (col_name c) in
  match col_data c with
  | Numeric _ vals => checar_numerica col_lower vals tally0
  | Object vals =>
      let smp := fixed_seed_sample vals in
      checar_datas col_lower smp
        (checar_codigos (col_name c) col_lower smp
           (checar_capitalizacao smp tally0))
  | Datetime _ => checked (passed tally0)
  | Other _ => tally0
  end.

Definition has_checks (c : column) : bool :=
  (0 <? col_checks (column_tally c))%nat.

(** passes / checks *)
Definition sub_score (c : column) : Q :=
  ratio (col_passes (column_tally c)) (col_checks (column_tally c)).

Definition integrity_score (df : dataframe) : Z :=
  match filter has_checks (columns df) with
  | [] => 5%Z
  | cs => score_of_share (mean (map sub_score cs))
  end.

Definition has_failed_check (c : column) : bool :=
  (col_passes (column_tally c) <? col_checks (column_tally c))%nat.

(** ["<column>: <comma-joined problem strings>"] *)
Definition finding (c : column) : string :=
  (col_name c ++ ": "
   ++ Text.join ", " (col_problemas (column_tally c)))%string.

(** The findings of the columns with a failed check. *)
Definition integrity_findings (df : dataframe) : list string :=
  map finding (filter has_failed_check (columns df)).

End WithEnv.

End Spec.

(* ================================================================== *)
(** * Ranges *)
(* ================================================================== *)

(** A float that, when it is a number, lies in [0, 1]. *)
Definition unit_float (x : float) : Prop :=
  match x with
  | NaN => True
  | Fin q => (0 <= q <= 1)%Q
  end.

(** A float that, when it is a number, is at most [b]. *)
Definition at_most (b : Q) (x : float) : Prop :=
  match x with
  | NaN => True
  | Fin q => (q <= b)%Q
  end.

(** The 1..5 scale of the scores. *)
Definition in_scale (z : Z) : Prop := (1 <= z <= 5)%Z.

(* ================================================================== *)
(** * Example tables *)
(* ================================================================== *)

Definition ints (zs : list Z) : list (option Q) :=
  map (fun z => Some (inject_Z z)) zs.

Definition strs (ss : list string) : list (option string) :=
  map (@Some string) ss.

(** The end-to-end scenario of the specification, on five rows. *)
Definition clientes : dataframe :=
  {| nrows := 5;
     columns :=
       [ {| col_name := "id"; col_data := Numeric KInt (ints [1; 2; 3; 4; 5]%Z) |};
         {| col_name := "valor";
            col_data := Numeric KFloat (ints [10; 20; 30; 40; 50]%Z) |};
         {| col_name := "nome";
            col_data := Object (strs ["Ana"; "Bruno"; "Carla"; "Davi"; "Eva"]) |} ] |}.

(** Two rows, equal on their single column. *)
Definition two_equal_rows : dataframe :=
  {| nrows := 2;
     columns := [ {| col_name := "uf";
                     col_data := Object [Some "sp"; Some "sp"] |} ] |}.

(** Three rows and no column. *)
Definition rows_without_columns : dataframe :=
  {| nrows := 3; columns := [] |}.

(** No row and one numeric column. *)
Definition no_rows : dataframe :=
  {| nrows := 0;
     columns := [ {| col_name := "valor"; col_data := Numeric KFloat [] |} ] |}.

(** One text column whose only value is in lower case. *)
Definition lowercase_only : dataframe :=
  {| nrows := 1;
     columns := [ {| col_name := "nome"; col_data := Object [Some "abc"] |} ] |}.


(* ================================================================== *)
(** * Slices, search and split on text *)
(* ================================================================== *)

Module Str.

(** [s[:n]] *)
Fixpoint take (n : nat) (s : string) : string :=
  match n, s with
  | S k, String c r => String c (take k r)
  | _, _ => EmptyString
  end.

(** [s[n:]] *)
Fixpoint drop (n : nat) (s : string) : string :=
  match n, s with
  | S k, String _ r => drop k r
  | _, _ => s
  end.

(** [hay.index(needle)]: the first position at which [needle] occurs;
    [None] where Python raises [ValueError] *)
Fixpoint index_of (needle hay : string) : option nat :=
  if String.prefix needle hay then Some 0%nat
  else match hay with
       | EmptyString => None
       | String _ r => option_map S (index_of needle r)
       end.

(** The pieces of [s] between the occurrences of [sep], found from left
    to right; every step consumes the separator, so a fuel above the
    length of [s] is never used up. *)
Fixpoint split_fuel (fuel : nat) (sep s : string) : list string :=
  match fuel with
  | O => [s]
  | S fuel' =>
      match index_of sep s with
      | None => [s]
      | Some i =>
          take i s :: split_fuel fuel' sep (drop (i + String.length sep) s)
      end
  end.

(** [s.split(sep)]; [None] for the empty separator, where Python raises
    [ValueError] *)
Definition split (sep s : string) : option (list string) :=
  match sep with
  | EmptyString => None
  | _ => Some (split_fuel (S (String.length s)) sep s)
  end.

(** [s * n] *)
Fixpoint repeat_string (s : string) (n : nat) : string :=
  match n with
  | O => EmptyString
  | S k => (s ++ repeat_string s k)%string
  end.

End Str.

(* ================================================================== *)
(** * The uploaded file and the two detectors *)
(* ================================================================== *)

(** An in-memory binary file: its bytes and the read position. *)
Record file := { data : string; position : nat }.

(** [arquivo.read()]: the bytes from the position on; the position moves
    to the end. *)
Definition read (f : file) : string * file :=
  (Str.drop (position f) (data f),
   {| data := data f;
      position := Nat.max (position f) (String.length (data f)) |}).

(** [arquivo.seek(n)] *)
Definition seek (n : nat) (f : file) : file :=
  {| data := data f; position := n |}.

(** [detectar_encoding]; [detect] stands for
    [chardet.detect(rawdata)['encoding']], which may be Python's [None]. *)
Definition detectar_encoding (detect : string -> option string)
    (arquivo : file) : option string * file :=
  let (rawdata, arquivo) := read arquivo in
  let resultado := detect rawdata in
  let arquivo := seek 0 arquivo in
  (resultado, arquivo).

Definition tab : string := String (ascii_of_nat 9) EmptyString.
Definition newline : string := String (ascii_of_nat 10) EmptyString.

Definition separadores : list string := [","; ";"; tab; "|"].

(** The loop over the candidate separators: the first that occurs in the
    line. *)
Fixpoint primeiro_separador (candidatos : list string) (linha : string)
    : option string :=
  match candidatos with
  | [] => None
  | sep :: resto =>
      if Text.contains sep linha then Some sep
      else primeiro_separador resto linha
  end.

(** [detectar_separador]; [decode encoding raw] stands for
    [raw.decode(encoding)], [None] when it raises.  An outcome [None] is
    an exception; the file is returned as the call leaves it. *)
Definition detectar_separador
    (decode : option string -> string -> option string)
    (arquivo : file) (encoding : option string) : option string * file :=
  let (raw, arquivo) := read arquivo in
  match decode encoding raw with
  | None => (None, arquivo)
  | Some conteudo =>
      let arquivo := seek 0 arquivo in
      match Str.split newline conteudo with
      | Some (linha :: _) =>
          (Some (match primeiro_separador separadores linha with
                 | Some sep => sep
                 | None => ","
                 end), arquivo)
      | _ => (None, arquivo)
      end
  end.

(* ================================================================== *)
(** * The sections of the language model's answer *)
(* ================================================================== *)

Definition secoes : list string :=
  ["PROBLEMA IDENTIFICADO"; "RECOMENDAÇÕES"; "MITIGAÇÃO"].

(** [f"[{tag}]"] *)
Definition marcador (tag : string) : string := "[" ++ tag ++ "]".

(** The loop that fills [end_positions]; [None] where [index] raises. *)
Fixpoint end_positions (end_tags : list string) (section_content : string)
    : option (list nat) :=
  match end_tags with
  | [] => Some []
  | tag :: resto =>
      if Text.contains tag section_content then
        match Str.index_of tag section_content,
              end_positions resto section_content with
        | Some i, Some ps => Some (i :: ps)
        | _, _ => None
        end
      else end_positions resto section_content
  end.

(** [extract_section]; [None] where an exception would escape. *)
Definition extract_section (content section_tag : string) : option string :=
  let start_tag := marcador section_tag in
  let end_tags :=
    map marcador
      (filter (fun tag => negb (String.eqb tag section_tag)) secoes) in
  if Text.contains start_tag content then
    match Str.split start_tag content with
    | Some (_ :: section_content :: _) =>
        match end_positions end_tags section_content with
        | Some [] => Some (Text.strip section_content)
        | Some (p :: ps) =>
            Some (Text.strip
                    (Str.take (fold_left Nat.min ps p) section_content))
        | None => None
        end
    | _ => None
    end
  else Some ("Seção " ++ section_tag ++ " não encontrada na resposta da IA").

(* ================================================================== *)
(** * What is shown of the scores *)
(* ================================================================== *)

(** [int(x)]: truncation toward zero; [None] for [int(nan)], which raises *)
Definition int_of_float (x : float) : option Z :=
  match x with
  | NaN => None
  | Fin q => Some (if Qle_bool 0 q then Qfloor q else Qceiling q)
  end.

(** ["⭐" * int(score_final)] *)
Definition classificacao (score_final : float) : option string :=
  option_map (fun n => Str.repeat_string "⭐" (Z.to_nat n))
    (int_of_float score_final).


Definition total (scores : list (string * Z)) : Z :=
  fold_right Z.add 0%Z (map snd scores).

(* ================================================================== *)
(** * Further example data *)
(* ================================================================== *)

(** A Boolean column. *)
Definition ativo : column :=
  {| col_name := "ativo";
     col_data := Numeric KBool [Some 1%Q; Some 0%Q; Some 1%Q] |}.

(** A numeric column whose name holds no keyword. *)
Definition idade : column :=
  {| col_name := "idade"; col_data := Numeric KInt (ints [31; 45; 27]%Z) |}.

(** Two rows whose only column is null throughout. *)
Definition sem_valores : dataframe :=
  {| nrows := 2;
     columns := [ {| col_name := "valor";
                     col_data := Numeric KFloat [None; None] |} ] |}.


(** A single Boolean column. *)
Definition so_booleana : dataframe := {| nrows := 3; columns := [ativo] |}.

(** A semicolon-separated file whose header holds a comma. *)
Definition vendas_csv : file :=
  {| data := "loja;valor,bruto" ++ newline ++ "1;10" ++ newline;
     position := 0 |}.

(** The identity codec. *)
Definition utf8 (encoding : option string) (raw : string) : option string :=
  match encoding with
  | Some _ => Some raw
  | None => None
  end.

Definition resposta : string :=
  "intro [PROBLEMA IDENTIFICADO]  nulos em valor " ++ newline
  ++ "[RECOMENDAÇÕES] imputar [MITIGAÇÃO] validar".

(* ================================================================== *)
(** * Facts about rounding and means *)
(* ================================================================== *)

Set Implicit Arguments.

Section Rounding.

Local Open Scope Q_scope.

Lemma round_half_even_comp (p q : Q) :
  p == q -> round_half_even p = round_half_even q.
Proof.
  intros H. unfold round_half_even.
  rewrite (Qfloor_comp _ _ H).
  assert (Hc : (p - inject_Z (Qfloor q) ?= 1 # 2) = (q - inject_Z (Qfloor q) ?= 1 # 2)).
  { apply Qcompare_comp; [rewrite H; reflexivity | reflexivity]. }
  rewrite Hc. reflexivity.
Qed.

Lemma round_half_even_Z (n : Z) : round_half_even (inject_Z n) = n.
Proof.
  unfold round_half_even. rewrite Qfloor_Z.
  destruct (Qcompare_spec (inject_Z n - inject_Z n) (1 # 2)) as [H|H|H];
    try lra; reflexivity.
Qed.

Lemma floor_bounds (q : Q) :
  inject_Z (Qfloor q) <= q /\ q < inject_Z (Qfloor q) + 1.
Proof.
  split; [apply Qfloor_le|].
  pose proof (Qlt_floor q) as H. rewrite inject_Z_plus in H. exact H.
Qed.

Lemma round_half_even_upper (q : Q) (n : Z) :
  q <= inject_Z n -> (round_half_even q <= n)%Z.
Proof.
  intros H. destruct (floor_bounds q) as [Hlo Hhi].
  assert (Hf : (Qfloor q <= n)%Z) by (rewrite Zle_Qle; lra).
  unfold round_half_even.
  destruct (Z.eq_dec (Qfloor q) n) as [->|Hne].
  - destruct (Qcompare_spec (q - inject_Z n) (1 # 2)) as [E|E|E]; try lra; lia.
  - destruct (q - inject_Z (Qfloor q) ?= 1 # 2); try destruct (Z.even _); lia.
Qed.

Lemma round_half_even_lower (q : Q) (n : Z) :
  inject_Z n <= q -> (n <= round_half_even q)%Z.
Proof.
  intros H.
  assert (Hf : (n <= Qfloor q)%Z).
  { rewrite <- (Qfloor_Z n). now apply Qfloor_resp_le. }
  unfold round_half_even.
  destruct (q - inject_Z (Qfloor q) ?= 1 # 2); try destruct (Z.even _); lia.
Qed.

(** Below one and a half, a value rounds to one at most. *)
Lemma round_half_even_small (q : Q) : q < 3 # 2 -> (round_half_even q <= 1)%Z.
Proof.
  intros H. destruct (floor_bounds q) as [Hlo Hhi].
  assert (Hf : (Qfloor q < 2)%Z) by (rewrite Zlt_Qlt; change (inject_Z 2) with (2 # 1); lra).
  unfold round_half_even.
  destruct (Z.eq_dec (Qfloor q) 1) as [E|Hne].
  - rewrite E in *. change (inject_Z 1) with 1 in *.
    destruct (Qcompare_spec (q - 1) (1 # 2)) as [E'|E'|E']; try lia; lra.
  - destruct (q - inject_Z (Qfloor q) ?= 1 # 2); try destruct (Z.even _); lia.
Qed.

Lemma Qsum_app (xs ys : list Q) : Qsum (xs ++ ys) == Qsum xs + Qsum ys.
Proof.
  induction xs as [|x xs IH]; simpl; [lra | rewrite IH; lra].
Qed.


Lemma Qsum_bounds (lo hi : Q) (xs : list Q) :
  Forall (fun x => lo <= x <= hi) xs ->
  lo * inject_Z (len xs) <= Qsum xs <= hi * inject_Z (len xs).
Proof.
  unfold len. induction 1 as [|x xs Hx _ IH].
  - cbn. change (inject_Z 0) with 0. lra.
  - cbn [Qsum fold_right List.length]. fold (Qsum xs).
    rewrite Nat2Z.inj_succ, <- Z.add_1_r, inject_Z_plus.
    change (inject_Z 1) with 1. lra.
Qed.

Lemma len_pos {A} (xs : list A) : xs <> [] -> 0 < inject_Z (len xs).
Proof.
  destruct xs; [congruence|]. intros _. unfold len. cbn [List.length].
  rewrite Nat2Z.inj_succ. change 0 with (inject_Z 0). rewrite <- Zlt_Qlt. lia.
Qed.

Lemma count_true_le (bs : list bool) : (count_true bs <= List.length bs)%nat.
Proof. unfold count_true. apply filter_length_le. Qed.

End Rounding.

(* ================================================================== *)
(** * Completude *)
(* ================================================================== *)


Lemma mean_bool_ratio (bs : list bool) :
  bs <> [] -> mean_bool bs = Fin (Spec.ratio (count_true bs) (List.length bs)).
Proof. destruct bs; [congruence | reflexivity]. Qed.






Lemma ratio_zero (n : nat) : (Spec.ratio 0 n == 0)%Q.
Proof. unfold Spec.ratio. cbn. unfold Qdiv. now rewrite Qmult_0_l. Qed.

Lemma ratio_full (n : nat) : (0 < n)%nat -> (Spec.ratio n n == 1)%Q.
Proof.
  intros H. unfold Spec.ratio. apply Qmult_inv_r.
  intros E. unfold Qeq in E. cbn in E. lia.
Qed.

Lemma count_true_none {A} (p : A -> bool) (xs : list A) :
  existsb p xs = false -> count_true (map p xs) = 0%nat.
Proof.
  unfold count_true. induction xs as [|x xs IH]; cbn; [reflexivity|].
  destruct (p x); cbn; [discriminate | exact IH].
Qed.

Lemma count_true_all {A} (p : A -> bool) (xs : list A) :
  forallb p xs = true -> count_true (map p xs) = List.length xs.
Proof.
  unfold count_true. induction xs as [|x xs IH]; cbn; [reflexivity|].
  destruct (p x); cbn; [|discriminate]. intros H. now rewrite IH.
Qed.


Lemma score_of_fraction_comp (x y : Q) :
  (x == y)%Q -> Spec.score_of_fraction x = Spec.score_of_fraction y.
Proof.
  intros H. unfold Spec.score_of_fraction. f_equal.
  apply round_half_even_comp. now rewrite H.
Qed.



(* ================================================================== *)
(** * Unicidade *)
(* ================================================================== *)

Lemma duplicated_from_spec (rs pre seen : list (list cell)) :
  (forall r, existsb (row_eqb r) seen = existsb (row_eqb r) pre) ->
  duplicated_from seen rs
  = map (Spec.repeats_earlier (pre ++ rs)) (seq (List.length pre) (List.length rs)).
Proof.
  revert pre seen. induction rs as [|r rs IH]; intros pre seen Hseen; [reflexivity|].
  cbn [duplicated_from List.length seq map]. f_equal.
  - unfold Spec.repeats_earlier.
    rewrite nth_middle, firstn_app, Nat.sub_diag, firstn_all, firstn_O, app_nil_r.
    apply Hseen.
  - rewrite (IH (pre ++ [r])%list).
    + rewrite <- app_assoc, length_app. cbn [List.length app].
      now rewrite Nat.add_1_r.
    + intros r'. rewrite existsb_app. cbn [existsb]. rewrite Hseen.
      now rewrite orb_false_r, orb_comm.
Qed.

Lemma length_rows (df : dataframe) : List.length (rows df) = nrows df.
Proof. unfold rows. now rewrite length_map, length_seq. Qed.

Lemma duplicated_spec (df : dataframe) :
  (1 <= nrows df)%nat -> columns df <> [] ->
  duplicated df = map (Spec.repeats_earlier (rows df)) (seq 0 (nrows df)).
Proof.
  intros Hn Hc. unfold duplicated, empty.
  destruct (nrows df) as [|n] eqn:En; [lia|].
  destruct (columns df) as [|c cs] eqn:Ec; [congruence|]. cbn [Nat.eqb List.length orb].
  rewrite (@duplicated_from_spec (rows df) [] []) by reflexivity.
  cbn [app List.length]. now rewrite length_rows, En.
Qed.

Lemma unicidade_formula (df : dataframe) :
  (1 <= nrows df)%nat -> columns df <> [] ->
  unicidade df
  = Ok (Spec.score_of_fraction (Spec.duplicate_fraction df),
        if Qltb (2 # 10) (Spec.duplicate_fraction df)
        then Spec.uniqueness_flag else []).
Proof.
  intros Hn Hc. unfold unicidade. rewrite (duplicated_spec df Hn Hc).
  rewrite mean_bool_ratio.
  - rewrite length_map, length_seq. reflexivity.
  - destruct (nrows df); [lia | discriminate].
Qed.

Lemma map_const_false {A} (f : A -> bool) (xs : list A) :
  (forall x, In x xs -> f x = false) -> count_true (map f xs) = 0%nat.
Proof.
  intros H. apply count_true_none.
  apply not_true_is_false. intros E. apply existsb_exists in E.
  destruct E as [x [Hin Hx]]. rewrite (H x Hin) in Hx. discriminate.
Qed.

(** When every row equals the first, every row but the first repeats. *)
Lemma count_repeats_all_equal (df : dataframe) :
  (forall i, (i < nrows df)%nat -> row_eqb (row df i) (row df 0) = true) ->
  count_true (map (Spec.repeats_earlier (rows df)) (seq 0 (nrows df)))
  = (nrows df - 1)%nat.
Proof.
  intros Hall. destruct (nrows df) as [|n] eqn:En; [reflexivity|].
  cbn [seq map]. unfold count_true. cbn [filter].
  replace (Spec.repeats_earlier (rows df) 0) with false by reflexivity.
  fold (count_true (map (Spec.repeats_earlier (rows df)) (seq 1 n))).
  rewrite count_true_all; [rewrite length_seq; lia|].
  apply forallb_forall. intros i Hi. apply in_seq in Hi.
  unfold Spec.repeats_earlier. apply existsb_exists. exists (row df 0). split.
  - unfold rows. rewrite En. cbn [seq map].
    destruct i as [|i]; [lia|]. cbn [firstn]. now left.
  - replace (nth i (rows df) []) with (row df i); [apply Hall; lia|].
    unfold rows. rewrite En.
    rewrite (nth_indep _ [] (row df 0)) by (rewrite length_map, length_seq; lia).
    rewrite (map_nth (row df)). f_equal.
    rewrite seq_nth; lia.
Qed.

Lemma Qltb_true (a b : Q) : (a < b)%Q -> Qltb a b = true.
Proof.
  intros H. unfold Qltb. apply negb_true_iff, not_true_is_false.
  rewrite Qle_bool_iff. lra.
Qed.

Lemma Qltb_false (a b : Q) : (b <= a)%Q -> Qltb a b = false.
Proof.
  intros H. unfold Qltb. apply negb_false_iff. now rewrite Qle_bool_iff.
Qed.

Lemma ratio_range (k n : nat) :
  (k <= n)%nat -> (0 < n)%nat -> (0 <= Spec.ratio k n <= 1)%Q.
Proof.
  intros Hk Hn. unfold Spec.ratio.
  assert (Hn' : (0 < inject_Z (Z.of_nat n))%Q).
  { change 0%Q with (inject_Z 0). rewrite <- Zlt_Qlt. lia. }
  assert (Hk0 : (0 <= inject_Z (Z.of_nat k))%Q).
  { change 0%Q with (inject_Z 0). rewrite <- Zle_Qle. lia. }
  assert (Hkn : (inject_Z (Z.of_nat k) <= inject_Z (Z.of_nat n))%Q).
  { rewrite <- Zle_Qle. lia. }
  split.
  - apply Qle_shift_div_l; [exact Hn' | lra].
  - apply Qle_shift_div_r; [exact Hn' | lra].
Qed.

Lemma ratio_all_but_one (n : nat) :
  (4 <= n)%nat -> (3 # 4 <= Spec.ratio (n - 1) n)%Q.
Proof.
  intros H. unfold Spec.ratio.
  assert (Hn : (4 <= inject_Z (Z.of_nat n))%Q).
  { change 4%Q with (inject_Z 4). rewrite <- Zle_Qle. lia. }
  assert (Hp : (inject_Z (Z.of_nat (n - 1)) == inject_Z (Z.of_nat n) - 1)%Q).
  { rewrite Nat2Z.inj_sub by lia. unfold Zminus.
    rewrite inject_Z_plus, inject_Z_opp. reflexivity. }
  apply Qle_shift_div_l; lra.
Qed.

(** C3, as stated, fails on the code: two equal rows make a dataset that
    consists of duplicated rows only, and its Uniqueness score is 2, not
    1; and with a row but no column the evaluator raises instead of
    returning a score. *)
Lemma unicidade_two_equal_rows_scores_2 :
  (forall i j, (i < 2)%nat -> (j < 2)%nat ->
     row_eqb (row two_equal_rows i) (row two_equal_rows j) = true)
  /\ unicidade two_equal_rows = Ok (2%Z, Spec.uniqueness_flag)
  /\ (1 <= nrows rows_without_columns)%nat
  /\ unicidade rows_without_columns = Raise ValueError.
Proof.
  repeat split.
  - intros i j Hi Hj.
    destruct i as [|[|i]]; destruct j as [|[|j]]; try lia; reflexivity.
  - cbn. lia.
Qed.

(** C3, amended. On a dataset with at least one row and one column, the
    Uniqueness score is [max(1, round((1 - duplicate_fraction) * 100 / 20))]
    where [duplicate_fraction] is the share of rows that equal an earlier
    row on all columns; the diagnostic is the single flag message exactly
    when that fraction exceeds 0.2 and is empty otherwise; a dataset in
    which no row repeats scores 5, and one of four rows or more that are
    all equal scores 1. *)
Theorem unicidade_score_and_flag (df : dataframe) :
  (1 <= nrows df)%nat -> columns df <> [] ->
  unicidade df
  = Ok (Z.max 1 (round_half_even
                   ((1 - Spec.duplicate_fraction df) * 100 / 20)%Q),
        if Qltb (2 # 10) (Spec.duplicate_fraction df)
        then ["⚠️ Muitos registros duplicados"] else [])
  /\ ((forall i, (i < nrows df)%nat ->
         Spec.repeats_earlier (rows df) i = false) ->
      unicidade df = Ok (5%Z, []))
  /\ ((forall i, (i < nrows df)%nat ->
         row_eqb (row df i) (row df 0) = true) ->
      (4 <= nrows df)%nat ->
      unicidade df = Ok (1%Z, ["⚠️ Muitos registros duplicados"])).
Proof.
  intros Hn Hc. pose proof (unicidade_formula df Hn Hc) as Hf.
  split; [exact Hf|]. split.
  - intros Hnone. rewrite Hf.
    assert (E : (Spec.duplicate_fraction df == 0)%Q).
    { unfold Spec.duplicate_fraction. rewrite map_const_false; [apply ratio_zero|].
      intros i Hi. apply in_seq in Hi. apply Hnone. lia. }
    rewrite (score_of_fraction_comp E), Qltb_false by (rewrite E; lra).
    reflexivity.
  - intros Hall H4. rewrite Hf.
    assert (E : (3 # 4 <= Spec.duplicate_fraction df <= 1)%Q).
    { unfold Spec.duplicate_fraction. rewrite (count_repeats_all_equal df Hall).
      split; [now apply ratio_all_but_one | apply ratio_range; lia]. }
    rewrite Qltb_true by lra. f_equal. f_equal.
    unfold Spec.score_of_fraction.
    pose proof (@round_half_even_small
                  ((1 - Spec.duplicate_fraction df) * 100 / 20)%Q) as Hr.
    assert (Hlt : ((1 - Spec.duplicate_fraction df) * 100 / 20 < 3 # 2)%Q).
    { apply Qlt_shift_div_r; lra. }
    specialize (Hr Hlt). lia.
Qed.

(** The amended statement applies to [two_equal_rows]. *)
Lemma unicidade_score_and_flag_witness :
  (1 <= nrows two_equal_rows)%nat /\ columns two_equal_rows <> []
  /\ unicidade two_equal_rows
     = Ok (Z.max 1 (round_half_even
                      ((1 - Spec.duplicate_fraction two_equal_rows) * 100 / 20)%Q),
           if Qltb (2 # 10) (Spec.duplicate_fraction two_equal_rows)
           then ["⚠️ Muitos registros duplicados"] else []).
Proof.
  split; [cbn; lia|]. split; [discriminate|].
  apply (unicidade_score_and_flag two_equal_rows); [cbn; lia | discriminate].
Defined.

(* ================================================================== *)
(** * Consistência *)
(* ================================================================== *)

Lemma length_filter_count {A} (p : A -> bool) (xs : list A) :
  List.length (filter p xs) = count_true (map p xs).
Proof.
  unfold count_true. induction xs as [|x xs IH]; [reflexivity|].
  cbn [filter map]. destruct (p x); cbn [List.length]; now rewrite IH.
Qed.

Lemma truediv_len {A B} (xs : list A) (ys : list B) :
  ys <> [] ->
  truediv (len xs) (len ys)
  = Ok (Fin (Spec.ratio (List.length xs) (List.length ys))).
Proof.
  intros H. unfold truediv, len.
  destruct (Z.eqb_spec (Z.of_nat (List.length ys)) 0) as [E|_]; [|reflexivity].
  destruct ys; [congruence | cbn in E; lia].
Qed.

Section Consistencia.

Variable E : pandas_env.

Lemma inconsistente_flagged (c : column) :
  inconsistente E c = Ok (Spec.flagged E c).
Proof.
  unfold inconsistente, Spec.flagged, Spec.valores.
  destruct (dropna_str E (col_data c)) as [|v vs]; [reflexivity|].
  cbn [map]. cbv zeta. destruct (col_data c); try reflexivity.
  - rewrite truediv_len by discriminate. cbn [bind].
    rewrite length_filter_count. reflexivity.
  - rewrite !mean_bool_ratio by discriminate.
    unfold Spec.share. cbn [map List.length]. now rewrite !length_map.
  - rewrite truediv_len by discriminate. cbn [bind].
    rewrite length_filter_count. reflexivity.
Qed.

Lemma consistencia_loop_flagged (cols : list column) (acc : list string) :
  consistencia_loop E cols acc
  = Ok (acc ++ map col_name (filter (Spec.flagged E) cols))%list.
Proof.
  revert acc. induction cols as [|c cols IH]; intros acc.
  - cbn. now rewrite app_nil_r.
  - cbn [consistencia_loop filter]. rewrite inconsistente_flagged. cbn [bind].
    rewrite IH. destruct (Spec.flagged E c); [|reflexivity].
    cbn [map]. now rewrite <- app_assoc.
Qed.

Lemma consistencia_formula (df : dataframe) :
  columns df <> [] ->
  consistencia E df
  = Ok (Spec.score_of_share
          (1 - Spec.ratio (List.length (Spec.flagged_columns E df))
                          (List.length (columns df)))%Q,
        Spec.flagged_columns E df).
Proof.
  intros Hc. unfold consistencia. rewrite consistencia_loop_flagged.
  cbn [bind app]. rewrite (truediv_len _ Hc). reflexivity.
Qed.

(** C5. On a dataset with at least one column, the Consistency score is
    [max(1, round((1 - flagged_count / total_columns) * 5))] and the
    diagnostic is exactly the list of the flagged columns, a column being
    flagged by the rules of [Spec.flagged] on its stringified, trimmed
    non-null values: numeric and temporal columns when more than 10% of
    them fail their pattern, textual columns when more than 50% look
    numeric or more than 50% look like dates; a column without non-null
    values is not flagged. *)
Theorem consistencia_score_and_flagged (df : dataframe) :
  columns df <> [] ->
  consistencia E df
  = Ok (Z.max 1 (round_half_even
                   ((1 - Spec.ratio (List.length (Spec.flagged_columns E df))
                                    (List.length (columns df))) * 5)%Q),
        map col_name (filter (Spec.flagged E) (columns df)))
  /\ (forall c, dropna_str E (col_data c) = [] -> Spec.flagged E c = false).
Proof.
  intros Hc. split; [exact (consistencia_formula df Hc)|].
  intros c H. unfold Spec.flagged, Spec.valores. now rewrite H.
Qed.

End Consistencia.

Lemma consistencia_score_and_flagged_witness :
  columns clientes <> []
  /\ consistencia first_positions clientes = Ok (5%Z, []).
Proof.
  split; [discriminate|].
  exact (proj1 (@consistencia_score_and_flagged first_positions clientes
                  ltac:(discriminate))).
Defined.

(* ================================================================== *)
(** * Precisão *)
(* ================================================================== *)









(* ================================================================== *)
(** * Integridade *)
(* ================================================================== *)

Lemma balanced_tally0 : Spec.balanced tally0.
Proof. reflexivity. Qed.

Lemma balanced_check (b : bool) (p : string) (t : tally) :
  Spec.balanced t -> Spec.balanced (checked (if b then problem p t else passed t)).
Proof.
  unfold Spec.balanced. intros H. destruct b; cbn; [rewrite length_app; cbn|]; lia.
Qed.

Lemma balanced_checar_numerica (s : string) (vals : list (option Q)) (t : tally) :
  Spec.balanced t -> Spec.balanced (checar_numerica s vals t).
Proof.
  intros H. unfold checar_numerica.
  destruct (Text.contains_any positive_keywords s);
    destruct (Text.contains "binário" s || Text.contains "flag" s);
    repeat apply balanced_check; exact H.
Qed.

(** A name with a document keyword and no id/code keyword has an expected
    digit length. *)
Lemma expected_length_known (s : string) :
  Text.contains_any document_keywords s = true ->
  Text.contains_any id_keywords s = false ->
  expected_length s <> None.
Proof.
  unfold Text.contains_any, document_keywords, id_keywords, expected_length.
  cbn [existsb].
  destruct (Text.contains "cpf" s), (Text.contains "cnpj" s),
    (Text.contains "cep" s), (Text.contains "telefone" s); try discriminate.
  cbn [orb]. intros H1 H2. rewrite H2 in H1. discriminate.
Qed.

Lemma id_keyword_is_document_keyword (s : string) :
  Text.contains_any id_keywords s = true ->
  Text.contains_any document_keywords s = true.
Proof.
  unfold Text.contains_any, document_keywords, id_keywords. cbn [existsb].
  intros H. rewrite H. now rewrite !orb_true_r.
Qed.

Lemma balanced_checar_codigos (col s : string) (smp : list string) (t : tally) :
  Spec.balanced t -> Spec.balanced (checar_codigos col s smp t).
Proof.
  intros H. unfold checar_codigos.
  destruct (Text.contains_any document_keywords s) eqn:Ed; [|exact H].
  destruct (Text.contains_any id_keywords s) eqn:Ei.
  - now apply balanced_check.
  - destruct (expected_length s) eqn:Ee.
    + now apply balanced_check.
    + now destruct (expected_length_known s Ed Ei).
Qed.

Lemma balanced_checar_datas (s : string) (smp : list string) (t : tally) :
  Spec.balanced t -> Spec.balanced (checar_datas s smp t).
Proof.
  intros H. unfold checar_datas.
  destruct (Text.contains_any date_keywords s); [now apply balanced_check | exact H].
Qed.

Section Integridade.

Variable E : pandas_env.

Lemma balanced_column_tally (c : column) : Spec.balanced (Spec.column_tally E c).
Proof.
  unfold Spec.column_tally. destruct (col_data c).
  - apply balanced_checar_numerica, balanced_tally0.
  - apply balanced_checar_datas, balanced_checar_codigos.
    unfold checar_capitalizacao. apply balanced_check, balanced_tally0.
  - reflexivity.
  - reflexivity.
Qed.

(** With the seed given, the column's checks leave the generator alone. *)
Lemma checar_coluna_tally (c : column) (g : rng E) :
  checar_coluna E c g = (Spec.column_tally E c, g).
Proof.
  unfold checar_coluna, Spec.column_tally, Spec.fixed_seed_sample, sample.
  destruct (col_data c); reflexivity.
Qed.

Lemma failed_check_has_problems (c : column) :
  Spec.has_failed_check E c = true ->
  Spec.has_checks E c = true /\ col_problemas (Spec.column_tally E c) <> [].
Proof.
  unfold Spec.has_failed_check, Spec.has_checks.
  pose proof (balanced_column_tally c) as B. unfold Spec.balanced in B.
  intros H. apply Nat.ltb_lt in H. split.
  - apply Nat.ltb_lt. lia.
  - intros N. rewrite N in B. cbn in B. lia.
Qed.

Lemma no_failed_check_no_problems (c : column) :
  Spec.has_failed_check E c = false ->
  col_problemas (Spec.column_tally E c) = [].
Proof.
  unfold Spec.has_failed_check.
  pose proof (balanced_column_tally c) as B. unfold Spec.balanced in B.
  intros H. apply Nat.ltb_ge in H.
  destruct (col_problemas (Spec.column_tally E c)); [reflexivity | cbn in B; lia].
Qed.

Lemma integridade_loop_spec (cols : list column) (s : Q) (total : nat)
    (det : list string) (g : rng E) :
  exists s',
    integridade_loop E cols (Fin s) total det g
    = (Ok (Fin s',
           (total + List.length (filter (Spec.has_checks E) cols))%nat,
           (det ++ map (Spec.finding E) (filter (Spec.has_failed_check E) cols))%list), g)
    /\ (s' == s + Qsum (map (Spec.sub_score E) (filter (Spec.has_checks E) cols)))%Q.
Proof.
  revert s total det. induction cols as [|c cols IH]; intros s total det.
  - exists s. cbn. rewrite app_nil_r, Nat.add_0_r. split; [reflexivity | lra].
  - cbn [integridade_loop filter]. rewrite checar_coluna_tally.
    fold (Spec.has_checks E c).
    destruct (Spec.has_checks E c) eqn:Hk.
    + unfold truediv.
      destruct (Z.eqb_spec (Z.of_nat (col_checks (Spec.column_tally E c))) 0) as [Z0|_].
      { unfold Spec.has_checks in Hk. apply Nat.ltb_lt in Hk. lia. }
      cbn [fadd flift].
      destruct (Spec.has_failed_check E c) eqn:Hf.
      * destruct (failed_check_has_problems c Hf) as [_ Hp].
        destruct (col_problemas (Spec.column_tally E c)) as [|p ps] eqn:Ep;
          [congruence|].
        destruct (IH (s + Spec.sub_score E c)%Q (S total)
                    (det ++ [detalhe (col_name c) (p :: ps)])%list) as [s' [Eq Hs]].
        exists s'. unfold Spec.sub_score, Spec.ratio in *. rewrite Eq. split.
        -- cbn [List.length map]. rewrite <- app_assoc, Nat.add_succ_r.
           unfold Spec.finding at 2, detalhe. now rewrite Ep.
        -- cbn [map Qsum fold_right]. rewrite Hs. unfold Qsum. lra.
      * rewrite (no_failed_check_no_problems c Hf).
        destruct (IH (s + Spec.sub_score E c)%Q (S total) det) as [s' [Eq Hs]].
        exists s'. unfold Spec.sub_score, Spec.ratio in *. rewrite Eq. split.
        -- cbn [List.length]. now rewrite Nat.add_succ_r.
        -- cbn [map Qsum fold_right]. rewrite Hs. unfold Qsum. lra.
    + destruct (Spec.has_failed_check E c) eqn:Hf.
      { destruct (failed_check_has_problems c Hf) as [Hk' _]. congruence. }
      apply IH.
Qed.

Lemma integridade_formula (df : dataframe) (g : rng E) :
  integridade E df g
  = (Ok (Spec.integrity_score E df, Spec.integrity_findings E df), g).
Proof.
  unfold integridade, Spec.integrity_score, Spec.integrity_findings.
  destruct (integridade_loop_spec (columns df) 0 0 [] g) as [s' [Eq Hs]].
  change (of_Z 0) with (Fin 0). rewrite Eq. cbn [bind app Nat.add].
  f_equal.
  destruct (filter (Spec.has_checks E) (columns df)) as [|c cs] eqn:Ef;
    [reflexivity|].
  cbn [List.length]. unfold fdiv_int.
  destruct (Z.eqb_spec (Z.of_nat (S (List.length cs))) 0) as [Z0|_]; [lia|].
  cbn [bind fdiv fmul flift of_Z round]. f_equal. f_equal.
  unfold Spec.score_of_share. f_equal. apply round_half_even_comp.
  unfold Spec.mean, len. rewrite Hs, length_map. cbn [List.length].
  change (inject_Z 5) with 5%Q. rewrite Qplus_0_l. reflexivity.
Qed.


End Integridade.

(* ================================================================== *)
(** * The checks on textual columns *)
(* ================================================================== *)

(** C2, on the code: a sample with a lower-case value and no upper-case
    one fails the capitalisation check, where the specification has it
    pass.  The check fails as soon as one of the two casings occurs. *)
Theorem capitalizacao_fails_on_lowercase_only :
  existsb Text.islower ["abc"] = true
  /\ existsb Text.isupper ["abc"] = false
  /\ checar_capitalizacao ["abc"] tally0
     = {| col_checks := 1; col_passes := 0;
          col_problemas := ["capitalização inconsistente"] |}
  /\ Spec.fixed_seed_sample first_positions [Some "abc"] = ["abc"]
  /\ integridade first_positions lowercase_only tt
     = (Ok (1%Z, ["nome: capitalização inconsistente"]), tt)
  /\ (forall smp t,
        col_passes (checar_capitalizacao smp t) = col_passes t
        <-> existsb Text.islower smp || existsb Text.isupper smp = true).
Proof.
  do 5 (split; [reflexivity|]).
  intros smp t. unfold checar_capitalizacao.
  destruct (existsb Text.islower smp || existsb Text.isupper smp); cbn.
  - split; reflexivity.
  - split; [lia | discriminate].
Qed.

(** C10. A textual column whose lower-cased name holds an id/code keyword
    and a document keyword with an expected digit length gets the
    length-consistency check only: the check fails exactly when the
    digit-stripped sampled values have more than one distinct length, and
    it passes when their lengths are equal, whatever the expected length
    is. *)
Theorem codigos_id_keyword_takes_precedence
    (col : string) (smp : list string) (t : tally) (n : nat) :
  Text.contains_any id_keywords (Text.lower col) = true ->
  expected_length (Text.lower col) = Some n ->
  let lens := map String.length (map Text.only_digits smp) in
  checar_codigos col (Text.lower col) smp t
  = checked (if (1 <? nunique lens)%nat
             then problem "tamanhos inconsistentes em códigos/IDs" t
             else passed t)
  /\ ((nunique lens <= 1)%nat ->
      checar_codigos col (Text.lower col) smp t = checked (passed t)).
Proof.
  intros Hid _ lens.
  assert (Eq : checar_codigos col (Text.lower col) smp t
               = checked (if (1 <? nunique lens)%nat
                          then problem "tamanhos inconsistentes em códigos/IDs" t
                          else passed t)).
  { unfold checar_codigos.
    now rewrite (id_keyword_is_document_keyword _ Hid), Hid. }
  split; [exact Eq|].
  intros Hle. rewrite Eq.
  destruct (Nat.ltb_spec 1 (nunique lens)); [lia | reflexivity].
Qed.

(** A column named [ID_CPF] whose values have three digits each: none has
    the eleven digits of a CPF, and the check passes. *)
Lemma codigos_id_keyword_takes_precedence_witness :
  Text.contains_any id_keywords (Text.lower "ID_CPF") = true
  /\ expected_length (Text.lower "ID_CPF") = Some 11%nat
  /\ forallb (fun s => negb (String.length (Text.only_digits s) =? 11)%nat)
       ["123"; "456"] = true
  /\ checar_codigos "ID_CPF" (Text.lower "ID_CPF") ["123"; "456"] tally0
     = checked (passed tally0).
Proof.
  split; [reflexivity|]. split; [reflexivity|]. split; [reflexivity|].
  apply (@codigos_id_keyword_takes_precedence "ID_CPF" ["123"; "456"] tally0 11);
    [reflexivity | reflexivity | vm_compute; lia].
Defined.

(* ================================================================== *)
(** * The whole evaluation *)
(* ================================================================== *)

Section Evaluation.

Variable E : pandas_env.

(** The evaluation neither reads nor advances the global generator. *)
Lemma calcular_scores_pure (df : dataframe) :
  exists r, forall g, calcular_scores E df g = (r, g).
Proof.
  unfold calcular_scores.
  destruct (c <- completude df;; u <- unicidade df;; k <- consistencia E df;;
            p <- precisao df;; Ok (c, u, k, p)) as [[[[c u] k] p]|e].
  - eexists. intros g. rewrite integridade_formula. cbn [bind]. reflexivity.
  - eexists. intros g. reflexivity.
Qed.

(** C9. Two runs of the evaluation on the same dataset give the same
    scores and the same diagnostics, whatever the state of the global
    pseudo-random generator before each run: the only sampling step is
    seeded. *)
Theorem calcular_scores_deterministic (df : dataframe) (g1 g2 : rng E) :
  fst (calcular_scores E df g1) = fst (calcular_scores E df g2)
  /\ (let (first, g') := calcular_scores E df g1 in
      fst (calcular_scores E df g') = first).
Proof.
  destruct (calcular_scores_pure df) as [r Hr].
  rewrite !Hr. cbn [fst]. split; reflexivity.
Qed.

End Evaluation.

(* ================================================================== *)
(** * The scores stay on the scale *)
(* ================================================================== *)

Lemma round_in_scale (x : float) (r : Z) :
  at_most 5 x -> round x = Ok r -> in_scale (Z.max 1 r).
Proof.
  destruct x as [|q]; cbn; [discriminate|]. intros Hq [= <-].
  pose proof (@round_half_even_upper q 5 Hq). unfold in_scale. lia.
Qed.

Lemma score_of_share_in_scale (q : Q) :
  (q <= 1)%Q -> in_scale (Spec.score_of_share q).
Proof.
  intros H. unfold Spec.score_of_share.
  apply (@round_in_scale (Fin (q * 5))); [cbn; lra | reflexivity].
Qed.

Lemma mean_bool_unit (bs : list bool) : unit_float (mean_bool bs).
Proof.
  destruct bs as [|b bs']; [exact I|].
  rewrite mean_bool_ratio by discriminate.
  apply ratio_range; [apply count_true_le | cbn; lia].
Qed.

Lemma finite_unit (xs : list float) :
  Forall unit_float xs -> Forall (fun q => 0 <= q <= 1)%Q (finite xs).
Proof.
  unfold finite. induction 1 as [|x xs Hx _ IH]; [constructor|].
  cbn [flat_map]. destruct x; [exact IH | now constructor].
Qed.

Lemma mean_unit (qs : list Q) :
  qs <> [] -> Forall (fun q => 0 <= q <= 1)%Q qs -> (0 <= Spec.mean qs <= 1)%Q.
Proof.
  intros Hne H. unfold Spec.mean.
  pose proof (Qsum_bounds H) as [Hlo Hhi]. pose proof (len_pos Hne) as Hp.
  split.
  - apply Qle_shift_div_l; [exact Hp | lra].
  - apply Qle_shift_div_r; [exact Hp | lra].
Qed.

Lemma nanmean_unit (xs : list float) :
  Forall unit_float xs -> unit_float (nanmean xs).
Proof.
  intros H. apply finite_unit in H. unfold nanmean.
  destruct (finite xs) as [|q qs] eqn:Ef; [exact I|].
  apply (@mean_unit (q :: qs)); [discriminate | exact H].
Qed.

(** The scale of Completude and Unicidade, applied to a fraction. *)
Lemma fraction_scale_at_most (m : float) :
  unit_float m ->
  at_most 5 (fdiv (fmul (fsub (of_Z 1) m) (of_Z 100)) (of_Z 20)).
Proof.
  destruct m as [|q]; [exact (fun _ => I)|]. cbn. intros H.
  change (inject_Z 1) with 1%Q. change (inject_Z 100) with 100%Q.
  change (inject_Z 20) with 20%Q.
  apply Qle_shift_div_r; lra.
Qed.

Lemma completude_in_scale (df : dataframe) (z : Z) (d : list string) :
  completude df = Ok (z, d) -> in_scale z.
Proof.
  unfold completude.
  set (x := fdiv _ _).
  destruct (round x) as [r|e] eqn:Er; cbn [bind]; [|discriminate].
  intros [= <- _]. apply (@round_in_scale x); [|exact Er].
  apply fraction_scale_at_most, nanmean_unit.
  unfold null_pct. rewrite map_map. apply Forall_map, Forall_forall.
  intros c _. apply mean_bool_unit.
Qed.

Lemma unicidade_in_scale (df : dataframe) (z : Z) (d : list string) :
  unicidade df = Ok (z, d) -> in_scale z.
Proof.
  unfold unicidade.
  set (x := fdiv _ _).
  destruct (round x) as [r|e] eqn:Er; cbn [bind]; [|discriminate].
  intros [= <- _]. apply (@round_in_scale x); [|exact Er].
  apply fraction_scale_at_most, mean_bool_unit.
Qed.

Lemma precisao_loop_at_most (cols : list (string * list (option Q)))
    (s : float) (acc : list string) (k : nat) :
  at_most (inject_Z (Z.of_nat k)) s ->
  at_most (inject_Z (Z.of_nat (k + List.length cols)))
    (fst (precisao_loop cols s acc)).
Proof.
  revert s acc k. induction cols as [|[col vals] cols IH]; intros s acc k Hs.
  - cbn. now rewrite Nat.add_0_r.
  - cbn [precisao_loop List.length]. rewrite Nat.add_succ_r, <- Nat.add_succ_l.
    apply IH.
    pose proof (mean_bool_unit (outliers vals)) as Hm.
    destruct s as [|q], (mean_bool (outliers vals)) as [|m]; try exact I.
    rewrite Nat2Z.inj_succ, <- Z.add_1_r, inject_Z_plus.
    cbn [at_most fadd fsub flift of_Z unit_float] in *.
    change (inject_Z 1) with 1%Q. lra.
Qed.

Lemma precisao_in_scale (df : dataframe) (z : Z) (d : list string) :
  precisao df = Ok (z, d) -> in_scale z.
Proof.
  unfold precisao.
  destruct (numeric_cols df) as [|c cols] eqn:Ec.
  - intros [= <- _]. unfold in_scale. lia.
  - pose proof (@precisao_loop_at_most (c :: cols) (of_Z 0) [] 0) as H.
    destruct (precisao_loop (c :: cols) (of_Z 0) []) as [s ocols].
    set (x := fmul _ _).
    destruct (round x) as [r|e] eqn:Er; cbn [bind]; [|discriminate].
    intros [= <- _]. apply (@round_in_scale x); [|exact Er].
    subst x. cbn [fst Nat.add] in H.
    destruct s as [|q]; [exact I|].
    specialize (H (Qle_refl _)). cbn [at_most] in H.
    pose proof (@len_pos _ (c :: cols) ltac:(discriminate)) as Hp.
    cbn [at_most fmul fdiv flift of_Z]. unfold len in *.
    set (n := inject_Z (Z.of_nat (List.length (c :: cols)))) in *.
    assert (Hq : (q / n <= 1)%Q) by (apply Qle_shift_div_r; [exact Hp | lra]).
    change (inject_Z 5) with 5%Q. lra.
Qed.

Section Scale.

Variable E : pandas_env.

Lemma consistencia_in_scale (df : dataframe) (z : Z) (d : list string) :
  consistencia E df = Ok (z, d) -> in_scale z.
Proof.
  destruct (columns df) as [|c cols] eqn:Ec.
  - unfold consistencia. now rewrite Ec.
  - rewrite consistencia_formula by (rewrite Ec; discriminate).
    intros [= <- _]. apply score_of_share_in_scale.
    assert (H : (0 <= Spec.ratio (List.length (Spec.flagged_columns E df))
                              (List.length (columns df)) <= 1)%Q).
    { apply ratio_range.
      - unfold Spec.flagged_columns. rewrite length_map. apply filter_length_le.
      - rewrite Ec. cbn. lia. }
    lra.
Qed.

Lemma sub_score_unit (c : column) :
  Spec.has_checks E c = true -> (0 <= Spec.sub_score E c <= 1)%Q.
Proof.
  unfold Spec.has_checks, Spec.sub_score. intros H. apply Nat.ltb_lt in H.
  pose proof (balanced_column_tally E c) as B. unfold Spec.balanced in B.
  apply ratio_range; lia.
Qed.

Lemma integrity_score_in_scale (df : dataframe) :
  in_scale (Spec.integrity_score E df).
Proof.
  unfold Spec.integrity_score.
  destruct (filter (Spec.has_checks E) (columns df)) as [|c cs] eqn:Ef.
  - unfold in_scale. lia.
  - apply score_of_share_in_scale, mean_unit; [discriminate|].
    rewrite <- Ef. apply Forall_map, Forall_forall. intros a Ha.
    apply filter_In in Ha. now apply sub_score_unit.
Qed.

End Scale.

Lemma round1_range (q : Q) : (1 <= q <= 5)%Q -> (1 <= round1 q <= 5)%Q.
Proof.
  intros [Hlo Hhi]. unfold round1.
  assert (H1 : (10 <= round_half_even (q * 10))%Z)
    by (apply round_half_even_lower; change (inject_Z 10) with 10%Q; lra).
  assert (H2 : (round_half_even (q * 10) <= 50)%Z)
    by (apply round_half_even_upper; change (inject_Z 50) with 50%Q; lra).
  rewrite Zle_Qle in H1, H2.
  change (inject_Z 10) with 10%Q in H1. change (inject_Z 50) with 50%Q in H2.
  split; [apply Qle_shift_div_l | apply Qle_shift_div_r]; lra.
Qed.

Lemma in_scale_Q (z : Z) : in_scale z -> (1 <= inject_Z z <= 5)%Q.
Proof.
  intros [H1 H2]. rewrite Zle_Qle in H1, H2. exact (conj H1 H2).
Qed.

(** C8. When the evaluation completes, it returns the five criteria, each
    with an integer score from 1 to 5, and the overall score, their mean
    rounded to one decimal place, lies between 1.0 and 5.0. *)
Theorem calcular_scores_in_scale (E : pandas_env) (df : dataframe)
    (g : rng E) (r : report) :
  fst (calcular_scores E df g) = Ok r ->
  map fst (scores r) = criterios
  /\ Forall (fun kv => (1 <= snd kv <= 5)%Z) (scores r)
  /\ exists q, score_final (scores r) = Fin q /\ (1 <= q <= 5)%Q.
Proof.
  unfold calcular_scores.
  destruct (completude df) as [[zc dc]|e] eqn:Hc; cbn [bind]; [|discriminate].
  destruct (unicidade df) as [[zu du]|e] eqn:Hu; cbn [bind]; [|discriminate].
  destruct (consistencia E df) as [[zk dk]|e] eqn:Hk; cbn [bind]; [|discriminate].
  destruct (precisao df) as [[zp dp]|e] eqn:Hp; cbn [bind]; [|discriminate].
  rewrite integridade_formula. cbn [bind fst]. intros [= <-]. cbn [scores].
  apply completude_in_scale in Hc. apply unicidade_in_scale in Hu.
  apply consistencia_in_scale in Hk. apply precisao_in_scale in Hp.
  pose proof (integrity_score_in_scale E df) as Hi.
  split; [reflexivity|]. split.
  - cbn [combine criterios map fst]. repeat constructor; cbn [snd]; 
      first [apply Hc | apply Hu | apply Hk | apply Hp | apply Hi].
  - eexists. split; [reflexivity|].
    apply round1_range. cbn [combine criterios map fst snd Qsum fold_right len List.length].
    apply in_scale_Q in Hc, Hu, Hk, Hp, Hi.
    change (inject_Z (len _)) with 5%Q.
    split; [apply Qle_shift_div_l | apply Qle_shift_div_r]; lra.
Qed.

Lemma calcular_scores_in_scale_witness :
  exists r, fst (calcular_scores first_positions clientes tt) = Ok r
            /\ Forall (fun kv => (1 <= snd kv <= 5)%Z) (scores r)
            /\ score_final (scores r) = Fin (round1 (25 / 5)).
Proof.
  eexists. split; [reflexivity|].
  split.
  - apply (@calcular_scores_in_scale first_positions clientes tt _ eq_refl).
  - reflexivity.
Defined.

(* ================================================================== *)
(** * Empty datasets *)
(* ================================================================== *)

(** C1, on the code: a dataset without columns, or without rows, does not
    come out with five scores.  Without columns the Consistency division
    [len(colunas_inconsistentes) / len(df.columns)] is 0/0 and raises
    [ZeroDivisionError], and already the Completeness mean is [NaN], whose
    rounding raises [ValueError]; without rows Completeness raises in the
    same way.  Accuracy and Integrity do guard their divisions and return
    5. *)
Theorem empty_dataset_raises (E : pandas_env) (n : nat) (g : rng E) :
  let no_columns := {| nrows := n; columns := [] |} in
  consistencia E no_columns = Raise ZeroDivisionError
  /\ completude no_columns = Raise ValueError
  /\ fst (calcular_scores E no_columns g) = Raise ValueError
  /\ completude no_rows = Raise ValueError
  /\ fst (calcular_scores E no_rows g) = Raise ValueError
  /\ precisao no_columns = Ok (5%Z, [])
  /\ integridade E no_columns g = (Ok (5%Z, []), g).
Proof. repeat split. Qed.

(* ================================================================== *)
(** * Facts about text *)
(* ================================================================== *)

Unset Implicit Arguments.

Lemma append_nil_r (s : string) : (s ++ "")%string = s.
Proof. induction s as [|c s IH]; [reflexivity | cbn; now rewrite IH]. Qed.

Lemma append_assoc (a b c : string) :
  ((a ++ b) ++ c)%string = (a ++ (b ++ c))%string.
Proof. induction a as [|x a IH]; [reflexivity | cbn; now rewrite IH]. Qed.

Lemma length_append (a b : string) :
  String.length (a ++ b) = (String.length a + String.length b)%nat.
Proof. induction a as [|x a IH]; [reflexivity | cbn; now rewrite IH]. Qed.

Lemma text_app (a b : list ascii) :
  Text.text (a ++ b)%list = (Text.text a ++ Text.text b)%string.
Proof. induction a as [|x a IH]; [reflexivity | cbn; now rewrite IH]. Qed.

Lemma take_drop (n : nat) (s : string) : (Str.take n s ++ Str.drop n s)%string = s.
Proof.
  revert s. induction n as [|n IH]; intros [|c s]; try reflexivity.
  cbn. now rewrite IH.
Qed.

Lemma length_take (n : nat) (s : string) : (String.length (Str.take n s) <= n)%nat.
Proof.
  revert s. induction n as [|n IH]; intros [|c s]; cbn; try lia.
  specialize (IH s). lia.
Qed.

Lemma prefix_nil (s : string) : String.prefix "" s = true.
Proof. destruct s; reflexivity. Qed.

Lemma prefix_length (x s : string) :
  String.prefix x s = true -> (String.length x <= String.length s)%nat.
Proof.
  revert s. induction x as [|a x IH]; intros s H; [cbn; lia|].
  destruct s as [|b s]; [discriminate|]. cbn in H.
  destruct (ascii_dec a b); [|discriminate]. specialize (IH s H). cbn. lia.
Qed.

Lemma prefix_app (x p q : string) :
  String.prefix x p = true -> String.prefix x (p ++ q) = true.
Proof.
  revert p. induction x as [|a x IH]; intros p H; [apply prefix_nil|].
  destruct p as [|b p]; [discriminate|]. cbn in *.
  destruct (ascii_dec a b); [now apply IH | discriminate].
Qed.

Lemma contains_app_l (x p q : string) :
  Text.contains x p = true -> Text.contains x (p ++ q) = true.
Proof.
  induction p as [|c p IH]; intros H.
  - cbn in H. rewrite orb_false_r in H.
    destruct x; [|discriminate]. destruct q; reflexivity.
  - cbn [Text.contains] in H. apply orb_true_iff in H. destruct H as [H|H].
    + pose proof (prefix_app _ _ q H) as P.
      change ((String c p ++ q)%string) with (String c (p ++ q)) in *.
      cbn [Text.contains]. rewrite P. reflexivity.
    + change ((String c p ++ q)%string) with (String c (p ++ q)).
      cbn [Text.contains]. rewrite (IH H). apply orb_true_r.
Qed.

Lemma contains_app_r (x p q : string) :
  Text.contains x q = true -> Text.contains x (p ++ q) = true.
Proof.
  intros H. induction p as [|c p IH]; [exact H|].
  change ((String c p ++ q)%string) with (String c (p ++ q)).
  cbn [Text.contains]. rewrite IH. apply orb_true_r.
Qed.

Lemma contains_take (x s : string) (n : nat) :
  Text.contains x (Str.take n s) = true -> Text.contains x s = true.
Proof.
  intros H. rewrite <- (take_drop n s). now apply contains_app_l.
Qed.

Lemma contains_drop (x s : string) (n : nat) :
  Text.contains x (Str.drop n s) = true -> Text.contains x s = true.
Proof.
  intros H. rewrite <- (take_drop n s). now apply contains_app_r.
Qed.

Lemma contains_index (x s : string) :
  Text.contains x s
  = match Str.index_of x s with Some _ => true | None => false end.
Proof.
  induction s as [|c s IH].
  - cbn. destruct x; reflexivity.
  - cbn [Text.contains Str.index_of].
    destruct (String.prefix x (String c s)); [reflexivity|].
    cbn [orb]. rewrite IH. destruct (Str.index_of x s); reflexivity.
Qed.

Lemma index_of_fits (x s : string) (i : nat) :
  Str.index_of x s = Some i -> (i + String.length x <= String.length s)%nat.
Proof.
  revert i. induction s as [|c s IH]; intros i; cbn [Str.index_of].
  - destruct (String.prefix x "") eqn:P; [|discriminate].
    intros [= <-]. apply prefix_length in P. lia.
  - destruct (String.prefix x (String c s)) eqn:P.
    + intros [= <-]. apply prefix_length in P. lia.
    + destruct (Str.index_of x s) as [j|]; [|discriminate].
      intros [= <-]. specialize (IH j eq_refl). cbn. lia.
Qed.

Lemma index_of_short (x s : string) :
  (String.length s < String.length x)%nat -> Str.index_of x s = None.
Proof.
  intros H. destruct (Str.index_of x s) as [i|] eqn:E; [|reflexivity].
  apply index_of_fits in E. lia.
Qed.

Lemma prefix_take (x s : string) (m : nat) :
  String.prefix x (Str.take m s) = true -> String.prefix x s = true.
Proof.
  intros H. rewrite <- (take_drop m s). now apply prefix_app.
Qed.

(** No occurrence ends within a slice that stops before the first
    occurrence ends. *)
Lemma index_of_take_before (x s : string) (i m : nat) :
  Str.index_of x s = Some i -> (m < i + String.length x)%nat ->
  Str.index_of x (Str.take m s) = None.
Proof.
  revert i m. induction s as [|c s IH]; intros i m E Hm.
  - apply index_of_fits in E. apply index_of_short.
    pose proof (length_take m ""). cbn in *. lia.
  - cbn [Str.index_of] in E.
    destruct (String.prefix x (String c s)) eqn:P.
    + injection E as <-. apply index_of_short.
      pose proof (length_take m (String c s)). lia.
    + destruct (Str.index_of x s) as [j|] eqn:Ej; [|discriminate].
      injection E as <-.
      destruct m as [|m].
      * apply index_of_short.
        destruct x; [cbn in P; discriminate | cbn; lia].
      * cbn [Str.take Str.index_of].
        destruct (String.prefix x (String c (Str.take m s))) eqn:P'.
        { change (String c (Str.take m s)) with (Str.take (S m) (String c s)) in P'.
          apply prefix_take in P'. congruence. }
        rewrite (IH j m eq_refl) by lia. reflexivity.
Qed.

Lemma not_contains_take (x s : string) (n : nat) :
  Text.contains x s = false -> Text.contains x (Str.take n s) = false.
Proof.
  intros H. apply not_true_is_false. intros C.
  apply contains_take in C. congruence.
Qed.

(** ** [strip] *)

Lemma lstrip_suffix (l : list ascii) :
  exists sp, l = (sp ++ Text.lstrip l)%list /\ Forall (fun c => Text.is_space c = true) sp.
Proof.
  induction l as [|c l [sp [IH Hs]]]; [exists []; split; [reflexivity | constructor]|].
  cbn [Text.lstrip]. destruct (Text.is_space c) eqn:Ec.
  - exists (c :: sp). split; [cbn; now rewrite <- IH | now constructor].
  - exists []. split; [reflexivity | constructor].
Qed.

(** [strip] keeps a slice of the text. *)
Lemma strip_slice (s : string) :
  exists before after, s = (before ++ (Text.strip s ++ after))%string.
Proof.
  unfold Text.strip.
  destruct (lstrip_suffix (Text.chars s)) as [sp1 [E1 _]].
  destruct (lstrip_suffix (rev (Text.lstrip (Text.chars s)))) as [sp2 [E2 _]].
  exists (Text.text sp1), (Text.text (rev sp2)).
  rewrite <- !text_app.
  apply (f_equal (@rev ascii)) in E2. rewrite rev_involutive, rev_app_distr in E2.
  rewrite <- E2, <- E1. unfold Text.text, Text.chars.
  now rewrite string_of_list_ascii_of_string.
Qed.

Lemma contains_strip (x s : string) :
  Text.contains x (Text.strip s) = true -> Text.contains x s = true.
Proof.
  intros H. destruct (strip_slice s) as [b [a E]]. rewrite E.
  now apply contains_app_r, contains_app_l.
Qed.

(** ** [split] *)

(** With a non-empty separator, fuel above the length is as good as any. *)
Lemma split_fuel_enough (sep s : string) (n m : nat) :
  sep <> EmptyString ->
  (String.length s < n)%nat -> (String.length s < m)%nat ->
  Str.split_fuel n sep s = Str.split_fuel m sep s.
Proof.
  intros Hsep. revert m s. induction n as [|n IH]; intros m s Hn Hm; [lia|].
  destruct m as [|m]; [lia|]. cbn [Str.split_fuel].
  destruct (Str.index_of sep s) as [i|] eqn:E; [|reflexivity].
  f_equal. apply index_of_fits in E.
  assert (Hl : (0 < String.length sep)%nat) by (destruct sep; [congruence | cbn; lia]).
  assert (Hd : (String.length (Str.drop (i + String.length sep) s)
                + (i + String.length sep) = String.length s)%nat).
  { pose proof (take_drop (i + String.length sep) s) as T.
    apply (f_equal String.length) in T. rewrite length_append in T.
    assert (String.length (Str.take (i + String.length sep) s)
            = (i + String.length sep)%nat).
    { clear T Hn Hm. revert s E. generalize (i + String.length sep)%nat as k.
      induction k as [|k IHk]; intros [|c s] E'; cbn in *; try lia.
      rewrite IHk by lia. reflexivity. }
    lia. }
  apply IH; lia.
Qed.

Lemma split_nonempty (sep s : string) (pieces : list string) :
  Str.split sep s = Some pieces -> pieces <> [].
Proof.
  unfold Str.split. destruct sep as [|a sep]; [discriminate|].
  intros [= <-]. cbn [Str.split_fuel].
  destruct (Str.index_of (String a sep) s); discriminate.
Qed.

(** The second piece, when the separator occurs: it starts after the
    first occurrence and does not hold the separator. *)
Lemma split_second (sep s : string) :
  sep <> EmptyString -> Text.contains sep s = true ->
  exists p0 p1 rest,
    Str.split sep s = Some (p0 :: p1 :: rest)
    /\ Text.contains sep p1 = false
    /\ (forall x, Text.contains x p1 = true -> Text.contains x s = true).
Proof.
  intros Hsep Hc. rewrite contains_index in Hc.
  destruct (Str.index_of sep s) as [i|] eqn:Ei; [|discriminate].
  assert (Hl : (0 < String.length sep)%nat) by (destruct sep; [congruence | cbn; lia]).
  pose proof (index_of_fits _ _ _ Ei) as Hfit.
  unfold Str.split. destruct sep as [|a sep'] eqn:Es; [congruence|]. rewrite <- Es in *.
  cbn [Str.split_fuel]. rewrite Ei.
  destruct (String.length s) as [|n] eqn:En; [lia|].
  cbn [Str.split_fuel].
  set (r := Str.drop (i + String.length sep) s).
  destruct (Str.index_of sep r) as [j|] eqn:Ej.
  - exists (Str.take i s), (Str.take j r), (Str.split_fuel n sep (Str.drop (j + String.length sep) r)).
    split; [reflexivity|]. split.
    + rewrite contains_index, (index_of_take_before _ _ _ _ Ej) by lia. reflexivity.
    + intros x Hx. apply contains_take in Hx. now apply contains_drop in Hx.
  - exists (Str.take i s), r, []. split; [reflexivity|]. split.
    + now rewrite contains_index, Ej.
    + intros x Hx. now apply contains_drop in Hx.
Qed.

(* ================================================================== *)
(** * extract_section *)
(* ================================================================== *)

Lemma marcador_nonempty (tag : string) : marcador tag <> EmptyString.
Proof. discriminate. Qed.

Lemma end_positions_found (tags : list string) (sc : string) :
  exists ps,
    end_positions tags sc = Some ps
    /\ forall t, In t tags -> Text.contains t sc = true ->
         exists i, Str.index_of t sc = Some i /\ In i ps.
Proof.
  induction tags as [|tag tags [ps [E H]]].
  - exists []. split; [reflexivity|]. intros t [].
  - cbn [end_positions]. destruct (Text.contains tag sc) eqn:C.
    + pose proof C as C'. rewrite contains_index in C'.
      destruct (Str.index_of tag sc) as [i|] eqn:Ei; [|discriminate].
      rewrite E. exists (i :: ps). split; [reflexivity|].
      intros t [<-|Hin] Ht.
      * exists i. split; [exact Ei | now left].
      * destruct (H t Hin Ht) as [k [Ek Hk]]. exists k. split; [exact Ek | now right].
    + exists ps. split; [exact E|].
      intros t [<-|Hin] Ht; [congruence|]. exact (H t Hin Ht).
Qed.

Lemma fold_min_le (ps : list nat) (p i : nat) :
  In i (p :: ps) -> (fold_left Nat.min ps p <= i)%nat.
Proof.
  revert p. induction ps as [|q ps IH]; intros p Hin.
  - destruct Hin as [<-|[]]. cbn. lia.
  - cbn [fold_left].
    assert (Hle : forall a, (fold_left Nat.min ps a <= a)%nat).
    { clear. induction ps as [|q ps IH]; intros a; cbn; [lia|].
      specialize (IH (Nat.min a q)). lia. }
    destruct Hin as [Hp|[Hq|Hin]].
    + specialize (Hle (Nat.min p q)). lia.
    + specialize (Hle (Nat.min p q)). lia.
    + apply IH. now right.
Qed.

(** What [extract_section] cuts out, before stripping. *)
Lemma extract_section_cut (content section_tag : string) :
  Text.contains (marcador section_tag) content = true ->
  exists cut,
    extract_section content section_tag = Some (Text.strip cut)
    /\ (forall x, Text.contains x cut = true -> Text.contains x content = true)
    /\ Text.contains (marcador section_tag) cut = false
    /\ (forall tag, In tag secoes -> Text.contains (marcador tag) cut = false).
Proof.
  intros Hc. unfold extract_section. rewrite Hc.
  destruct (split_second _ _ (marcador_nonempty section_tag) Hc)
    as [p0 [p1 [rest [Es [Hno Hsub]]]]].
  rewrite Es.
  set (end_tags := map marcador
                     (filter (fun tag => negb (String.eqb tag section_tag)) secoes)).
  destruct (end_positions_found end_tags p1) as [ps [Ep Hps]]. rewrite Ep.
  assert (Htag : forall tag, In tag secoes ->
                   marcador tag = marcador section_tag \/ In (marcador tag) end_tags).
  { intros tag Hin. destruct (String.eqb tag section_tag) eqn:Eq.
    - apply String.eqb_eq in Eq. left. now rewrite Eq.
    - right. apply in_map, filter_In. split; [exact Hin | now rewrite Eq]. }
  destruct ps as [|p ps].
  - exists p1. repeat split; try assumption.
    intros tag Hin. destruct (Htag tag Hin) as [->|Hend]; [exact Hno|].
    apply not_true_is_false. intros C.
    destruct (Hps _ Hend C) as [i [_ []]].
  - exists (Str.take (fold_left Nat.min ps p) p1). repeat split.
    + intros x Hx. apply contains_take in Hx. now apply Hsub.
    + now apply not_contains_take.
    + intros tag Hin. destruct (Htag tag Hin) as [->|Hend];
        [now apply not_contains_take|].
      destruct (Text.contains (marcador tag) p1) eqn:C;
        [|now apply not_contains_take].
      destruct (Hps _ Hend C) as [i [Ei Hi]].
      rewrite contains_index.
      rewrite (index_of_take_before _ _ _ _ Ei); [reflexivity|].
      pose proof (fold_min_le ps p i Hi). cbn. lia.
Qed.

(** X1. [extract_section] never raises; when the start marker is missing
    it answers with the not-found message, and when it is present the
    text it returns holds neither that marker nor any of the three section
    markers. *)
Theorem extract_section_holds_no_marker (content section_tag : string) :
  exists out,
    extract_section content section_tag = Some out
    /\ (Text.contains (marcador section_tag) content = false ->
        out = "Seção " ++ section_tag ++ " não encontrada na resposta da IA")
    /\ (Text.contains (marcador section_tag) content = true ->
        Text.contains (marcador section_tag) out = false
        /\ forall tag, In tag secoes ->
             Text.contains (marcador tag) out = false).
Proof.
  destruct (Text.contains (marcador section_tag) content) eqn:Hc.
  - destruct (extract_section_cut content section_tag Hc)
      as [cut [E [_ [Hs Ht]]]].
    exists (Text.strip cut). split; [exact E|]. split; [discriminate|].
    intros _. split.
    + apply not_true_is_false. intros C. apply contains_strip in C. congruence.
    + intros tag Hin. apply not_true_is_false. intros C.
      apply contains_strip in C. rewrite (Ht tag Hin) in C. discriminate.
  - eexists. unfold extract_section. rewrite Hc.
    split; [reflexivity|]. split; [reflexivity | discriminate].
Qed.

Lemma prefix_refl (s : string) : String.prefix s s = true.
Proof.
  induction s as [|c s IH]; [reflexivity|]. cbn.
  destruct (ascii_dec c c); [exact IH | congruence].
Qed.

Lemma contains_refl (s : string) : Text.contains s s = true.
Proof.
  destruct s as [|c s]; [reflexivity|].
  cbn [Text.contains]. now rewrite prefix_refl.
Qed.

(** X2. When the start marker is present, the section returned is a
    contiguous piece of the answer: nothing is added or rewritten. *)
Theorem extract_section_is_slice (content section_tag out : string) :
  Text.contains (marcador section_tag) content = true ->
  extract_section content section_tag = Some out ->
  Text.contains out content = true.
Proof.
  intros Hc E.
  destruct (extract_section_cut content section_tag Hc) as [cut [E' [Hsub _]]].
  rewrite E' in E. injection E as <-.
  apply Hsub, contains_strip, contains_refl.
Qed.

Lemma extract_section_is_slice_witness :
  Text.contains (marcador "RECOMENDAÇÕES") resposta = true
  /\ extract_section resposta "RECOMENDAÇÕES" = Some "imputar"
  /\ Text.contains "imputar" resposta = true.
Proof.
  split; [reflexivity|]. split; [reflexivity|].
  exact (extract_section_is_slice resposta "RECOMENDAÇÕES" "imputar"
           eq_refl eq_refl).
Defined.

(** ** [strip] leaves no white space at either end *)

Lemma lstrip_head (l : list ascii) :
  match Text.lstrip l with
  | [] => True
  | c :: _ => Text.is_space c = false
  end.
Proof.
  induction l as [|c l IH]; [exact I|]. cbn [Text.lstrip].
  destruct (Text.is_space c) eqn:E; [exact IH | exact E].
Qed.

Lemma lstrip_fixed (l : list ascii) :
  match l with
  | [] => True
  | c :: _ => Text.is_space c = false
  end -> Text.lstrip l = l.
Proof. destruct l as [|c l]; [reflexivity|]. cbn. now intros ->. Qed.

Lemma strip_idempotent (s : string) : Text.strip (Text.strip s) = Text.strip s.
Proof.
  unfold Text.strip, Text.text, Text.chars.
  rewrite list_ascii_of_string_of_list_ascii.
  set (a := Text.lstrip (list_ascii_of_string s)).
  set (b := Text.lstrip (rev a)).
  assert (H1 : Text.lstrip (rev b) = rev b).
  { apply lstrip_fixed.
    destruct (lstrip_suffix (rev a)) as [sp [E _]]. fold b in E.
    apply (f_equal (@rev ascii)) in E. rewrite rev_involutive, rev_app_distr in E.
    pose proof (lstrip_head (list_ascii_of_string s)) as Ha. fold a in Ha.
    destruct (rev b) as [|c r]; [exact I|]. rewrite E in Ha. exact Ha. }
  rewrite H1, rev_involutive.
  assert (H2 : Text.lstrip b = b) by (apply lstrip_fixed, lstrip_head).
  now rewrite H2.
Qed.

(** X3. The section returned has no white space at its ends: stripping it
    again changes nothing. *)
Theorem extract_section_is_stripped (content section_tag out : string) :
  Text.contains (marcador section_tag) content = true ->
  extract_section content section_tag = Some out ->
  Text.strip out = out.
Proof.
  intros Hc E.
  destruct (extract_section_cut content section_tag Hc) as [cut [E' _]].
  rewrite E' in E. injection E as <-. apply strip_idempotent.
Qed.

Lemma extract_section_is_stripped_witness :
  Text.contains (marcador "PROBLEMA IDENTIFICADO") resposta = true
  /\ extract_section resposta "PROBLEMA IDENTIFICADO" = Some "nulos em valor"
  /\ Text.strip "nulos em valor" = "nulos em valor".
Proof.
  split; [reflexivity|]. split; [reflexivity|].
  exact (extract_section_is_stripped resposta "PROBLEMA IDENTIFICADO"
           "nulos em valor" eq_refl eq_refl).
Defined.

(* ================================================================== *)
(** * detectar_encoding and detectar_separador *)
(* ================================================================== *)

Lemma primeiro_separador_first (candidatos : list string) (linha : string) :
  match primeiro_separador candidatos linha with
  | Some sep =>
      exists antes depois,
        candidatos = (antes ++ sep :: depois)%list
        /\ Text.contains sep linha = true
        /\ Forall (fun c => Text.contains c linha = false) antes
  | None => Forall (fun c => Text.contains c linha = false) candidatos
  end.
Proof.
  induction candidatos as [|c cs IH]; [constructor|].
  cbn [primeiro_separador]. destruct (Text.contains c linha) eqn:Ec.
  - exists [], cs. repeat split; [exact Ec | constructor].
  - destruct (primeiro_separador cs linha) as [sep|].
    + destruct IH as [antes [depois [E [Hs Ha]]]].
      exists (c :: antes), depois. rewrite E. repeat split; [exact Hs|].
      now constructor.
    + now constructor.
Qed.

(** X4. Once the bytes decode, [detectar_separador] returns one of the
    four candidates: the first of comma, semicolon, tab and bar, in this
    order, that occurs in the first line of the text, whatever the other
    lines hold and however often the others occur; and a comma when none
    of them occurs there. *)
Theorem detectar_separador_first_candidate
    (decode : option string -> string -> option string)
    (arquivo : file) (encoding : option string) (conteudo : string) :
  decode encoding (fst (read arquivo)) = Some conteudo ->
  exists linha resto sep,
    Str.split newline conteudo = Some (linha :: resto)
    /\ fst (detectar_separador decode arquivo encoding) = Some sep
    /\ In sep separadores
    /\ ((exists antes depois,
           separadores = (antes ++ sep :: depois)%list
           /\ Text.contains sep linha = true
           /\ Forall (fun c => Text.contains c linha = false) antes)
        \/ (sep = ","
            /\ Forall (fun c => Text.contains c linha = false) separadores)).
Proof.
  intros Hd. unfold detectar_separador.
  destruct (read arquivo) as [raw arq] eqn:Er. cbn [fst] in Hd. rewrite Hd.
  destruct (Str.split newline conteudo) as [[|linha resto]|] eqn:Es.
  - now apply split_nonempty in Es.
  - exists linha, resto.
    pose proof (primeiro_separador_first separadores linha) as H.
    destruct (primeiro_separador separadores linha) as [sep|].
    + exists sep. destruct H as [antes [depois [E Hrest]]].
      repeat split.
      * rewrite E. apply in_or_app. right. now left.
      * left. exists antes, depois. split; [exact E | exact Hrest].
    + exists ",". repeat split; [now left|]. right. split; [reflexivity | exact H].
  - discriminate.
Qed.

Lemma detectar_separador_first_candidate_witness :
  utf8 (Some "utf-8") (fst (read vendas_csv)) = Some (data vendas_csv)
  /\ fst (detectar_separador utf8 vendas_csv (Some "utf-8")) = Some ",".
Proof.
  split; [reflexivity|].
  destruct (detectar_separador_first_candidate utf8 vendas_csv (Some "utf-8")
              (data vendas_csv) eq_refl) as [linha [resto [sep [_ [E _]]]]].
  reflexivity.
Defined.

(** ** Only the first line counts *)

Lemma index_of_char_app (c : ascii) (l r : string) :
  Text.contains (String c "") l = false ->
  Str.index_of (String c "") (l ++ String c r) = Some (String.length l).
Proof.
  induction l as [|a l IH]; intros H.
  - cbn. destruct (ascii_dec c c); [|congruence]. now rewrite prefix_nil.
  - cbn [Text.contains] in H. apply orb_false_iff in H. destruct H as [Hp Hc].
    change ((String a l ++ String c r)%string) with (String a (l ++ String c r)).
    cbn [Str.index_of].
    assert (Hp' : String.prefix (String c "") (String a (l ++ String c r)) = false).
    { cbn in *. destruct (ascii_dec c a); [|reflexivity].
      now rewrite prefix_nil in Hp. }
    rewrite Hp', (IH Hc). reflexivity.
Qed.

Lemma take_app_length (l r : string) : Str.take (String.length l) (l ++ r) = l.
Proof. induction l as [|a l IH]; [destruct r; reflexivity | cbn; now rewrite IH]. Qed.

Lemma first_line_app (l rest : string) :
  Text.contains newline l = false ->
  exists resto, Str.split newline (l ++ newline ++ rest) = Some (l :: resto).
Proof.
  intros H. unfold Str.split, newline. cbn [Str.split_fuel].
  change ((String (ascii_of_nat 10) "" ++ rest)%string)
    with (String (ascii_of_nat 10) rest).
  rewrite (index_of_char_app _ _ rest H), take_app_length. eexists. reflexivity.
Qed.

Lemma first_line_alone (l : string) :
  Text.contains newline l = false -> Str.split newline l = Some [l].
Proof.
  intros H. unfold Str.split, newline in *. cbn [Str.split_fuel].
  rewrite contains_index in H.
  destruct (Str.index_of (String (ascii_of_nat 10) "") l); [discriminate | reflexivity].
Qed.

(** X5. The separator is decided by the first line alone: a file and its
    header line on its own give the same separator. *)
Theorem detectar_separador_reads_first_line
    (decode : option string -> string -> option string)
    (arquivo cabecalho : file) (encoding : option string)
    (linha resto : string) :
  Text.contains newline linha = false ->
  decode encoding (fst (read arquivo)) = Some (linha ++ newline ++ resto) ->
  decode encoding (fst (read cabecalho)) = Some linha ->
  fst (detectar_separador decode arquivo encoding)
  = fst (detectar_separador decode cabecalho encoding).
Proof.
  intros Hl H1 H2. unfold detectar_separador.
  destruct (read arquivo) as [raw1 a1]. destruct (read cabecalho) as [raw2 a2].
  cbn [fst] in H1, H2. rewrite H1, H2.
  destruct (first_line_app linha resto Hl) as [ps E]. rewrite E.
  rewrite (first_line_alone linha Hl). reflexivity.
Qed.

Lemma detectar_separador_reads_first_line_witness :
  fst (detectar_separador utf8 vendas_csv (Some "utf-8"))
  = fst (detectar_separador utf8
           {| data := "loja;valor,bruto"; position := 0 |} (Some "utf-8")).
Proof.
  apply (detectar_separador_reads_first_line utf8 vendas_csv _ (Some "utf-8")
           "loja;valor,bruto" ("1;10" ++ newline));
    reflexivity.
Defined.

(** X6. The two detectors rewind the file.  From a file at its start,
    [detectar_encoding] hands all the bytes to the detector and leaves the
    file as it found it; [detectar_separador] then decodes all the bytes
    and, when they decode, answers and leaves the file at its start again;
    when decoding raises, the exception escapes before the rewind and the
    file stays at its end. *)
Theorem detectores_rewind
    (detect : string -> option string)
    (decode : option string -> string -> option string) (arquivo : file) :
  position arquivo = 0%nat ->
  detectar_encoding detect arquivo = (detect (data arquivo), arquivo)
  /\ (forall conteudo,
        decode (detect (data arquivo)) (data arquivo) = Some conteudo ->
        exists sep,
          detectar_separador decode arquivo (detect (data arquivo))
          = (Some sep, arquivo))
  /\ (decode (detect (data arquivo)) (data arquivo) = None ->
      detectar_separador decode arquivo (detect (data arquivo))
      = (None, {| data := data arquivo;
                  position := String.length (data arquivo) |})).
Proof.
  destruct arquivo as [bytes pos]. cbn [position data]. intros ->.
  split; [reflexivity|]. split.
  - intros conteudo Hd. unfold detectar_separador, read. cbn [position data Str.drop].
    rewrite Hd.
    destruct (Str.split newline conteudo) as [[|linha resto]|] eqn:Es.
    + now apply split_nonempty in Es.
    + eexists. reflexivity.
    + discriminate.
  - intros Hd. unfold detectar_separador, read. cbn [position data Str.drop].
    now rewrite Hd.
Qed.

Lemma detectores_rewind_witness :
  position vendas_csv = 0%nat
  /\ detectar_encoding (fun _ => Some "utf-8") vendas_csv
     = (Some "utf-8", vendas_csv)
  /\ detectar_separador utf8 vendas_csv (Some "utf-8") = (Some ",", vendas_csv).
Proof.
  split; [reflexivity|].
  destruct (detectores_rewind (fun _ => Some "utf-8") utf8 vendas_csv eq_refl)
    as [H1 [H2 _]].
  split; [exact H1|].
  destruct (H2 (data vendas_csv) eq_refl) as [sep E].
  cbn in E |- *. reflexivity.
Defined.

(* ================================================================== *)
(** * The bands of the scale *)
(* ================================================================== *)

Lemma inject_Z_succ (n : Z) : (inject_Z (n + 1) == inject_Z n + 1)%Q.
Proof. rewrite inject_Z_plus. reflexivity. Qed.

Lemma inject_Z_pred (n : Z) : (inject_Z (n - 1) == inject_Z n - 1)%Q.
Proof.
  unfold Z.sub. rewrite inject_Z_plus, inject_Z_opp. reflexivity.
Qed.

Lemma round_half_even_near (n : Z) (q : Q) :
  (inject_Z n - (1 # 2) < q)%Q -> (q < inject_Z n + (1 # 2))%Q ->
  round_half_even q = n.
Proof.
  intros Hlo Hhi. destruct (floor_bounds q) as [Fl Fh].
  assert (H1 : (n - 1 < Qfloor q + 1)%Z).
  { rewrite Zlt_Qlt, inject_Z_succ, inject_Z_pred. lra. }
  assert (H2 : (Qfloor q < n + 1)%Z).
  { rewrite Zlt_Qlt, inject_Z_succ. lra. }
  unfold round_half_even.
  destruct (Z.eq_dec (Qfloor q) n) as [E|NE].
  - rewrite E in *.
    destruct (Qcompare_spec (q - inject_Z n) (1 # 2)) as [C|C|C]; try lra; reflexivity.
  - assert (E : Qfloor q = (n - 1)%Z) by lia. rewrite E in *.
    pose proof (inject_Z_pred n) as P.
    destruct (Qcompare_spec (q - inject_Z (n - 1)) (1 # 2)) as [C|C|C]; try lra; lia.
Qed.

Lemma round_half_even_tie (n : Z) (q : Q) :
  (q == inject_Z n + (1 # 2))%Q ->
  round_half_even q = if Z.even n then n else (n + 1)%Z.
Proof.
  intros H. rewrite (round_half_even_comp H). unfold round_half_even.
  assert (F : Qfloor (inject_Z n + (1 # 2)) = n).
  { destruct (floor_bounds (inject_Z n + (1 # 2))) as [Fl Fh].
    assert (A : (Qfloor (inject_Z n + (1 # 2)) < n + 1)%Z)
      by (rewrite Zlt_Qlt, inject_Z_succ; lra).
    assert (B : (n <= Qfloor (inject_Z n + (1 # 2)))%Z)
      by (rewrite <- (Qfloor_Z n) at 1; apply Qfloor_resp_le; lra).
    lia. }
  rewrite F.
  destruct (Qcompare_spec (inject_Z n + (1 # 2) - inject_Z n) (1 # 2)) as [C|C|C];
    try lra; reflexivity.
Qed.

(** The five bands of [max(1, round((1 - x) * 100 / 20))]: ties go to the
    even neighbour, which widens the bands of 4 and 2. *)
Lemma score_of_fraction_bands (x : Q) :
  (0 <= x)%Q ->
  ((x < 1 # 10)%Q -> Spec.score_of_fraction x = 5%Z)
  /\ ((1 # 10 <= x <= 3 # 10)%Q -> Spec.score_of_fraction x = 4%Z)
  /\ ((3 # 10 < x < 1 # 2)%Q -> Spec.score_of_fraction x = 3%Z)
  /\ ((1 # 2 <= x <= 7 # 10)%Q -> Spec.score_of_fraction x = 2%Z)
  /\ ((7 # 10 < x)%Q -> Spec.score_of_fraction x = 1%Z).
Proof.
  intros H0. unfold Spec.score_of_fraction.
  assert (Hq : forall n, (inject_Z n - (1 # 2) < (1 - x) * 100 / 20)%Q ->
                         ((1 - x) * 100 / 20 < inject_Z n + (1 # 2))%Q ->
                         round_half_even ((1 - x) * 100 / 20) = n)
    by (intros n; apply round_half_even_near).
  assert (Ht : forall n, ((1 - x) * 100 / 20 == inject_Z n + (1 # 2))%Q ->
                         round_half_even ((1 - x) * 100 / 20)
                         = if Z.even n then n else (n + 1)%Z)
    by (intros n; apply round_half_even_tie).
  assert (E : ((1 - x) * 100 / 20 == 5 - 5 * x)%Q) by field.
  repeat split.
  - intros H. rewrite (Hq 5%Z); [reflexivity | |];
      rewrite E; change (inject_Z 5) with 5%Q; lra.
  - intros [Hl Hh].
    destruct (Qlt_le_dec (1 # 10) x) as [L|L];
      [destruct (Qlt_le_dec x (3 # 10)) as [U|U]|].
    + rewrite (Hq 4%Z); [reflexivity | |];
        rewrite E; change (inject_Z 4) with 4%Q; lra.
    + rewrite (Ht 3%Z); [reflexivity|].
      rewrite E. change (inject_Z 3) with 3%Q. lra.
    + rewrite (Ht 4%Z); [reflexivity|].
      rewrite E. change (inject_Z 4) with 4%Q. lra.
  - intros [Hl Hh]. rewrite (Hq 3%Z); [reflexivity | |];
      rewrite E; change (inject_Z 3) with 3%Q; lra.
  - intros [Hl Hh].
    destruct (Qlt_le_dec (1 # 2) x) as [L|L];
      [destruct (Qlt_le_dec x (7 # 10)) as [U|U]|].
    + rewrite (Hq 2%Z); [reflexivity | |];
        rewrite E; change (inject_Z 2) with 2%Q; lra.
    + rewrite (Ht 1%Z); [reflexivity|].
      rewrite E. change (inject_Z 1) with 1%Q. lra.
    + rewrite (Ht 2%Z); [reflexivity|].
      rewrite E. change (inject_Z 2) with 2%Q. lra.
  - intros H.
    assert (R : (round_half_even ((1 - x) * 100 / 20) <= 1)%Z)
      by (apply round_half_even_small; rewrite E; lra).
    lia.
Qed.




Lemma duplicate_fraction_nonneg (df : dataframe) :
  (1 <= nrows df)%nat -> (0 <= Spec.duplicate_fraction df)%Q.
Proof.
  intros Hn. unfold Spec.duplicate_fraction. apply ratio_range; [|lia].
  pose proof (count_true_le
                (map (Spec.repeats_earlier (rows df)) (seq 0 (nrows df)))) as H.
  now rewrite length_map, length_seq in H.
Qed.

(** X8. On a dataset with a row and a column, the Uniqueness score falls
    in the same five bands of the duplicate fraction [d]: 5 below 10%, 4
    from 10% to 30% inclusive, 3 strictly between 30% and 50%, 2 from 50%
    to 70% inclusive, and 1 above 70%. *)
Theorem unicidade_bands (df : dataframe) :
  (1 <= nrows df)%nat -> columns df <> [] ->
  exists z d,
    unicidade df = Ok (z, d)
    /\ ((Spec.duplicate_fraction df < 1 # 10)%Q -> z = 5%Z)
    /\ ((1 # 10 <= Spec.duplicate_fraction df <= 3 # 10)%Q -> z = 4%Z)
    /\ ((3 # 10 < Spec.duplicate_fraction df < 1 # 2)%Q -> z = 3%Z)
    /\ ((1 # 2 <= Spec.duplicate_fraction df <= 7 # 10)%Q -> z = 2%Z)
    /\ ((7 # 10 < Spec.duplicate_fraction df)%Q -> z = 1%Z).
Proof.
  intros Hn Hc. eexists. eexists.
  split; [exact (unicidade_formula df Hn Hc)|].
  exact (score_of_fraction_bands _ (duplicate_fraction_nonneg df Hn)).
Qed.

Lemma unicidade_bands_witness :
  (1 <= nrows two_equal_rows)%nat /\ columns two_equal_rows <> []
  /\ exists z d, unicidade two_equal_rows = Ok (z, d)
       /\ ((1 # 2 <= Spec.duplicate_fraction two_equal_rows <= 7 # 10)%Q
           -> z = 2%Z).
Proof.
  assert (Hn : (1 <= nrows two_equal_rows)%nat) by (cbn; lia).
  assert (Hc : columns two_equal_rows <> []) by discriminate.
  split; [exact Hn|]. split; [exact Hc|].
  destruct (unicidade_bands two_equal_rows Hn Hc) as [z [d [E [_ [_ [_ [B _]]]]]]].
  exists z, d. split; [exact E | exact B].
Defined.

(* ================================================================== *)
(** * A low score comes with a diagnostic *)
(* ================================================================== *)

Lemma round_le_3 (q : Q) : (round_half_even q <= 3)%Z -> (q < 7 # 2)%Q.
Proof.
  intros H. destruct (Qlt_le_dec q (7 # 2)) as [L|L]; [exact L|]. exfalso.
  destruct (Qlt_le_dec q (9 # 2)) as [U|U].
  - destruct (Qlt_le_dec (7 # 2) q) as [S|S].
    + rewrite (round_half_even_near 4 q) in H; [lia | |];
        change (inject_Z 4) with 4%Q; lra.
    + rewrite (round_half_even_tie 3 q) in H; [cbn in H; lia|].
      change (inject_Z 3) with 3%Q. lra.
  - assert (R : (4 <= round_half_even q)%Z)
      by (apply round_half_even_lower; change (inject_Z 4) with 4%Q; lra).
    lia.
Qed.

Lemma score_of_fraction_low (x : Q) :
  (Spec.score_of_fraction x <= 3)%Z -> (3 # 10 < x)%Q.
Proof.
  unfold Spec.score_of_fraction. intros H.
  assert (R : (round_half_even ((1 - x) * 100 / 20) <= 3)%Z) by lia.
  apply round_le_3 in R.
  assert (E : ((1 - x) * 100 / 20 == 5 - 5 * x)%Q) by field.
  rewrite E in R. lra.
Qed.

Lemma score_of_share_low (q : Q) :
  (Spec.score_of_share q <= 3)%Z -> (q < 7 # 10)%Q.
Proof.
  unfold Spec.score_of_share. intros H.
  assert (R : (round_half_even (q * 5) <= 3)%Z) by lia.
  apply round_le_3 in R. lra.
Qed.

Lemma Qsum_upper (b : Q) (qs : list Q) :
  Forall (fun q => q <= b)%Q qs -> (Qsum qs <= b * inject_Z (len qs))%Q.
Proof.
  unfold len. induction 1 as [|x xs Hx _ IH].
  - cbn. change (inject_Z 0) with 0%Q. lra.
  - cbn [Qsum fold_right List.length]. fold (Qsum xs).
    rewrite Nat2Z.inj_succ, <- Z.add_1_r, inject_Z_succ. lra.
Qed.

Lemma Qsum_lower (b : Q) (qs : list Q) :
  Forall (fun q => b <= q)%Q qs -> (b * inject_Z (len qs) <= Qsum qs)%Q.
Proof.
  unfold len. induction 1 as [|x xs Hx _ IH].
  - cbn. change (inject_Z 0) with 0%Q. lra.
  - cbn [Qsum fold_right List.length]. fold (Qsum xs).
    rewrite Nat2Z.inj_succ, <- Z.add_1_r, inject_Z_succ. lra.
Qed.

(** A mean above a bound has an element above it. *)
Lemma exists_above_mean (b : Q) (qs : list Q) :
  qs <> [] -> (b < Spec.mean qs)%Q -> exists q, In q qs /\ (b < q)%Q.
Proof.
  intros Hne Hm.
  destruct (Forall_Exists_dec (fun q => q <= b)%Q
              (fun q => match Qlt_le_dec b q with
                        | left L => right (Qlt_not_le _ _ L)
                        | right R => left R
                        end) qs) as [F|Ex].
  - exfalso. pose proof (Qsum_upper b qs F) as S.
    pose proof (@len_pos _ qs Hne) as P. unfold Spec.mean in Hm.
    assert (Spec.mean qs <= b)%Q by (apply Qle_shift_div_r; [exact P | lra]).
    unfold Spec.mean in *. lra.
  - apply Exists_exists in Ex. destruct Ex as [q [Hin Hq]].
    exists q. split; [exact Hin|]. now apply Qnot_le_lt.
Qed.

(** A mean below a bound has an element below it. *)
Lemma exists_below_mean (b : Q) (qs : list Q) :
  qs <> [] -> (Spec.mean qs < b)%Q -> exists q, In q qs /\ (q < b)%Q.
Proof.
  intros Hne Hm.
  destruct (Forall_Exists_dec (fun q => b <= q)%Q
              (fun q => match Qlt_le_dec q b with
                        | left L => right (Qlt_not_le _ _ L)
                        | right R => left R
                        end) qs) as [F|Ex].
  - exfalso. pose proof (Qsum_lower b qs F) as S.
    pose proof (@len_pos _ qs Hne) as P.
    assert (b <= Spec.mean qs)%Q by (apply Qle_shift_div_l; [exact P | lra]).
    lra.
  - apply Exists_exists in Ex. destruct Ex as [q [Hin Hq]].
    exists q. split; [exact Hin|]. now apply Qnot_le_lt.
Qed.

Lemma in_finite (q : Q) (xs : list float) : In q (finite xs) -> In (Fin q) xs.
Proof.
  unfold finite. induction xs as [|x xs IH]; [intros []|].
  cbn [flat_map]. intros H. apply in_app_or in H. destruct H as [H|H].
  - destruct x as [|p]; [destruct H|]. destruct H as [<-|[]]. now left.
  - right. now apply IH.
Qed.

Lemma filter_nonempty {A} (f : A -> bool) (x : A) (l : list A) :
  In x l -> f x = true -> filter f l <> [].
Proof.
  intros Hin Hf E.
  assert (H : In x (filter f l)) by (apply filter_In; now split).
  rewrite E in H. destruct H.
Qed.

Lemma map_nonempty {A B} (f : A -> B) (l : list A) : l <> [] -> map f l <> [].
Proof. destruct l; [congruence | discriminate]. Qed.

Lemma completude_low (df : dataframe) (z : Z) (d : list string) :
  completude df = Ok (z, d) -> (z <= 3)%Z -> d <> [].
Proof.
  unfold completude, nanmean.
  destruct (finite (map snd (null_pct df))) as [|q0 qs] eqn:Ef;
    [discriminate|].
  cbn [fsub fmul fdiv flift of_Z round bind]. intros [= <- <-] Hz.
  change (Z.max 1 (round_half_even
            ((inject_Z 1 - Qsum (q0 :: qs) / inject_Z (Z.of_nat (List.length (q0 :: qs))))
             * inject_Z 100 / inject_Z 20)))
    with (Spec.score_of_fraction (Spec.mean (q0 :: qs))) in Hz.
  apply score_of_fraction_low in Hz.
  destruct (exists_above_mean _ (q0 :: qs) ltac:(discriminate) Hz) as [q [Hin Hq]].
  rewrite <- Ef in Hin. apply in_finite in Hin.
  apply in_map_iff in Hin. destruct Hin as [p [Ep Hp]].
  apply map_nonempty. apply (filter_nonempty _ p); [exact Hp|].
  rewrite Ep. cbn. now apply Qltb_true.
Qed.

Lemma unicidade_low (df : dataframe) (z : Z) (d : list string) :
  unicidade df = Ok (z, d) -> (z <= 3)%Z ->
  d = ["⚠️ Muitos registros duplicados"].
Proof.
  unfold unicidade.
  destruct (mean_bool (duplicated df)) as [|q]; [discriminate|].
  cbn [fsub fmul fdiv flift of_Z round bind]. intros [= <- <-] Hz.
  change (Z.max 1 (round_half_even
            ((inject_Z 1 - q) * inject_Z 100 / inject_Z 20)))
    with (Spec.score_of_fraction q) in Hz.
  apply score_of_fraction_low in Hz.
  cbn [fgt flt]. rewrite Qltb_true by lra. reflexivity.
Qed.

Lemma consistencia_low (E : pandas_env) (df : dataframe) (z : Z)
    (d : list string) :
  consistencia E df = Ok (z, d) -> (z <= 3)%Z -> d <> [].
Proof.
  destruct (columns df) as [|c cols] eqn:Ec.
  - unfold consistencia. now rewrite Ec.
  - rewrite consistencia_formula by (rewrite Ec; discriminate).
    intros [= <- <-] Hz Hd. rewrite Hd in Hz. cbn [List.length] in Hz.
    apply score_of_share_low in Hz.
    pose proof (ratio_zero (List.length (columns df))) as R. lra.
Qed.




Lemma integridade_low (E : pandas_env) (df : dataframe) (g g' : rng E)
    (z : Z) (d : list string) :
  integridade E df g = (Ok (z, d), g') -> (z <= 3)%Z -> d <> [].
Proof.
  rewrite integridade_formula. intros [= <- <- _] Hz.
  unfold Spec.integrity_score in Hz. unfold Spec.integrity_findings.
  destruct (filter (Spec.has_checks E) (columns df)) as [|c cs] eqn:Ef; [lia|].
  apply score_of_share_low in Hz.
  assert (Hne' : map (Spec.sub_score E) (c :: cs) <> []) by discriminate.
  destruct (exists_below_mean _ _ Hne' Hz) as [x [Hin Hx]].
  apply in_map_iff in Hin. destruct Hin as [a [Ea Ha]].
  rewrite <- Ef in Ha. apply filter_In in Ha. destruct Ha as [Hcol Hk].
  apply map_nonempty. apply (filter_nonempty _ a); [exact Hcol|].
  unfold Spec.has_failed_check. apply Nat.ltb_lt.
  unfold Spec.has_checks in Hk. apply Nat.ltb_lt in Hk.
  pose proof (balanced_column_tally E a) as B. unfold Spec.balanced in B.
  destruct (Nat.lt_ge_cases (col_passes (Spec.column_tally E a))
              (col_checks (Spec.column_tally E a))) as [L|G]; [exact L|].
  exfalso. assert (Eq : col_passes (Spec.column_tally E a)
                        = col_checks (Spec.column_tally E a)) by lia.
  rewrite <- Ea in Hx. unfold Spec.sub_score in Hx. rewrite Eq in Hx.
  pose proof (ratio_full Hk) as R. lra.
Qed.

(** X9. Whenever the Completeness score is 3 or less, the diagnostic
    names at least one column: the mean null fraction is then above 30%,
    so some column is above 30% too. *)
Theorem completude_low_score_names_a_column (df : dataframe) (z : Z)
    (d : list string) :
  completude df = Ok (z, d) -> (z <= 3)%Z -> d <> [].
Proof. exact (completude_low df z d). Qed.

Lemma completude_low_score_names_a_column_witness :
  completude sem_valores = Ok (1%Z, ["valor"]) /\ ["valor"] <> [].
Proof.
  split; [reflexivity|].
  apply (completude_low_score_names_a_column sem_valores 1 ["valor"]);
    [reflexivity | lia].
Defined.

(** X10. Whenever the Uniqueness score is 3 or less, the duplicate flag
    is in the diagnostic. *)
Theorem unicidade_low_score_is_flagged (df : dataframe) (z : Z)
    (d : list string) :
  unicidade df = Ok (z, d) -> (z <= 3)%Z ->
  d = ["⚠️ Muitos registros duplicados"].
Proof. exact (unicidade_low df z d). Qed.

Lemma unicidade_low_score_is_flagged_witness :
  exists d, unicidade two_equal_rows = Ok (2%Z, d)
            /\ d = ["⚠️ Muitos registros duplicados"].
Proof.
  eexists. split; [reflexivity|].
  apply (unicidade_low_score_is_flagged two_equal_rows 2 _ eq_refl). lia.
Defined.

(** X11. Whenever the Consistency score is 3 or less, the diagnostic
    names at least one column. *)
Theorem consistencia_low_score_names_a_column (E : pandas_env)
    (df : dataframe) (z : Z) (d : list string) :
  consistencia E df = Ok (z, d) -> (z <= 3)%Z -> d <> [].
Proof. exact (consistencia_low E df z d). Qed.

Lemma consistencia_low_score_names_a_column_witness :
  consistencia first_positions so_booleana = Ok (1%Z, ["ativo"])
  /\ ["ativo"] <> [].
Proof.
  split; [reflexivity|].
  apply (consistencia_low_score_names_a_column first_positions so_booleana 1
           ["ativo"]); [reflexivity | lia].
Defined.



(** X13. Whenever the Integrity score is 3 or less, the diagnostic holds
    at least one finding. *)
Theorem integridade_low_score_has_a_finding (E : pandas_env)
    (df : dataframe) (g g' : rng E) (z : Z) (d : list string) :
  integridade E df g = (Ok (z, d), g') -> (z <= 3)%Z -> d <> [].
Proof. exact (integridade_low E df g g' z d). Qed.

Lemma integridade_low_score_has_a_finding_witness :
  integridade first_positions lowercase_only tt
  = (Ok (1%Z, ["nome: capitalização inconsistente"]), tt)
  /\ ["nome: capitalização inconsistente"] <> [].
Proof.
  split; [reflexivity|].
  apply (integridade_low_score_has_a_finding first_positions lowercase_only
           tt tt 1 ["nome: capitalização inconsistente"]); [reflexivity | lia].
Defined.



(* ================================================================== *)
(** * The overall score and the stars *)
(* ================================================================== *)

Lemma round1_fifth (t : Z) :
  round1 (inject_Z t / 5) = (inject_Z (2 * t) / 10)%Q.
Proof.
  unfold round1. f_equal. f_equal.
  rewrite (@round_half_even_comp (inject_Z t / 5 * 10) (inject_Z (2 * t))).
  - apply round_half_even_Z.
  - rewrite inject_Z_mult. change (inject_Z 2) with 2%Q. field.
Qed.

Lemma round1_comp (a b : Q) : (a == b)%Q -> round1 a = round1 b.
Proof.
  intros H. unfold round1. f_equal. f_equal.
  apply round_half_even_comp. now rewrite H.
Qed.

(** X15. For a report of [calcular_scores], rounding the mean to one
    decimal place changes nothing: the overall score is exactly the sum of
    the five scores divided by 5.  The stars shown are that sum divided by
    5, rounded down, between one and five of them, and five only when all
    five criteria score 5. *)
Theorem score_final_is_a_fifth (E : pandas_env) (df : dataframe)
    (g : rng E) (r : report) :
  fst (calcular_scores E df g) = Ok r ->
  exists q n,
    score_final (scores r) = Fin q
    /\ (q == inject_Z (total (scores r)) / 5)%Q
    /\ classificacao (score_final (scores r))
       = Some (Str.repeat_string "⭐" n)
    /\ Z.of_nat n = (total (scores r) / 5)%Z
    /\ (1 <= n <= 5)%nat
    /\ (n = 5%nat <-> Forall (fun kv => snd kv = 5%Z) (scores r)).
Proof.
  unfold calcular_scores.
  destruct (completude df) as [[zc dc]|e] eqn:Hc; cbn [bind]; [|discriminate].
  destruct (unicidade df) as [[zu du]|e] eqn:Hu; cbn [bind]; [|discriminate].
  destruct (consistencia E df) as [[zk dk]|e] eqn:Hk; cbn [bind]; [|discriminate].
  destruct (precisao df) as [[zp dp]|e] eqn:Hp; cbn [bind]; [|discriminate].
  rewrite integridade_formula. cbn [bind fst]. intros [= <-]. cbn [scores].
  apply completude_in_scale in Hc. apply unicidade_in_scale in Hu.
  apply consistencia_in_scale in Hk. apply precisao_in_scale in Hp.
  pose proof (integrity_score_in_scale E df) as Hi.
  set (zi := Spec.integrity_score E df) in *.
  unfold in_scale in *.
  cbn [combine criterios map fst snd].
  set (sc := [("Completude", zc); ("Unicidade", zu); ("Consistência", zk);
              ("Precisão", zp); ("Integridade", zi)]).
  assert (Et : total sc = (zc + (zu + (zk + (zp + (zi + 0)))))%Z) by reflexivity.
  assert (Es : score_final sc = Fin (inject_Z (2 * total sc) / 10)).
  { rewrite <- round1_fifth, Et. unfold score_final, sc. f_equal.
    apply round1_comp.
    cbn [map snd Qsum fold_right len List.length].
    rewrite !inject_Z_plus.
    change (inject_Z (Z.of_nat 5)) with 5%Q. change (inject_Z 0) with 0%Q.
    reflexivity. }
  assert (Ht : (5 <= total sc <= 25)%Z) by lia.
  assert (Ef : Qfloor (inject_Z (2 * total sc) / 10) = (total sc / 5)%Z).
  { change 10%Q with (inject_Z 10). rewrite <- Zdiv_Qdiv.
    change 10%Z with (2 * 5)%Z. apply Z.div_mul_cancel_l; lia. }
  exists (inject_Z (2 * total sc) / 10)%Q, (Z.to_nat (total sc / 5)).
  assert (Hd : (1 <= total sc / 5 <= 5)%Z).
  { split; [apply Z.div_le_lower_bound | apply Z.div_le_upper_bound]; lia. }
  split; [exact Es|]. split.
  { rewrite inject_Z_mult. change (inject_Z 2) with 2%Q. field. }
  split.
  { rewrite Es. unfold classificacao, int_of_float. cbn [option_map].
    assert (Hq : Qle_bool 0 (inject_Z (2 * total sc) / 10) = true).
    { apply Qle_bool_iff. apply Qle_shift_div_l; [reflexivity|].
      rewrite Qmult_0_l. change 0%Q with (inject_Z 0). rewrite <- Zle_Qle. lia. }
    rewrite Hq, Ef. reflexivity. }
  split; [rewrite Z2Nat.id; lia|]. split; [lia|].
  split.
  - intros Hn.
    assert (H25 : (25 <= total sc)%Z).
    { assert (H5 : (total sc / 5 = 5)%Z) by lia.
      pose proof (Z.mul_succ_div_gt (total sc) 5 ltac:(lia)) as G.
      pose proof (Z.mul_div_le (total sc) 5 ltac:(lia)) as L. lia. }
    unfold sc. repeat constructor; cbn [snd]; lia.
  - intros F. unfold sc in F.
    repeat match goal with
           | H : Forall _ (_ :: _) |- _ => inversion H; subst; clear H
           end.
    cbn [snd] in *.
    assert (E25 : total sc = 25%Z) by (rewrite Et; lia).
    rewrite E25. reflexivity.
Qed.

Lemma score_final_is_a_fifth_witness :
  exists r, fst (calcular_scores first_positions lowercase_only tt) = Ok r
    /\ total (scores r) = 21%Z
    /\ classificacao (score_final (scores r)) = Some "⭐⭐⭐⭐".
Proof.
  eexists. split; [vm_compute; reflexivity|]. split; [reflexivity|].
  destruct (score_final_is_a_fifth first_positions lowercase_only tt _ eq_refl)
    as [q [n [_ [_ [Ec [En _]]]]]].
  assert (Hn : n = 4%nat) by (apply Nat2Z.inj; rewrite En; reflexivity).
  subst n. exact Ec.
Defined.

(* ================================================================== *)
(** * Boolean columns under Consistência *)
(* ================================================================== *)

Lemma share_all (p : string -> bool) (vs : list string) :
  vs <> [] -> forallb p vs = true -> (Spec.share p vs == 1)%Q.
Proof.
  intros Hne Hall. unfold Spec.share. rewrite (count_true_all p vs Hall).
  apply ratio_full. destruct vs; [congruence | cbn; lia].
Qed.

Lemma booleana_flagged (E : pandas_env) (c : column) (vals : list (option Q)) :
  (forall q, num_str E KBool q = "True" \/ num_str E KBool q = "False") ->
  col_data c = Numeric KBool vals -> dropna vals <> [] ->
  Spec.flagged E c = true.
Proof.
  intros HE Hc Hne. unfold Spec.flagged, Spec.valores. rewrite Hc.
  cbn [dropna_str].
  destruct (dropna vals) as [|v vs]; [congruence|].
  set (xs := map Text.strip (map (num_str E KBool) (v :: vs))).
  assert (Hx : xs <> []) by (subst xs; discriminate).
  assert (Hall : forallb (Spec.fails Text.match_number) xs = true).
  { apply forallb_forall. intros x Hin. subst xs.
    apply in_map_iff in Hin. destruct Hin as [y [<- Hy]].
    apply in_map_iff in Hy. destruct Hy as [q [<- _]].
    destruct (HE q) as [-> | ->]; reflexivity. }
  destruct xs as [|x xs']; [congruence|].
  apply Qltb_true. rewrite (share_all _ _ Hx Hall). reflexivity.
Qed.

Lemma booleana_diagnostic (E : pandas_env) (df : dataframe) (c : column)
    (vals : list (option Q)) :
  (forall q, num_str E KBool q = "True" \/ num_str E KBool q = "False") ->
  In c (columns df) ->
  col_data c = Numeric KBool vals -> dropna vals <> [] ->
  inconsistente E c = Ok true
  /\ exists z d, consistencia E df = Ok (z, d) /\ In (col_name c) d.
Proof.
  intros HE Hin Hc Hne.
  pose proof (booleana_flagged E c vals HE Hc Hne) as Hf. split.
  - rewrite inconsistente_flagged. now rewrite Hf.
  - assert (Hcols : columns df <> []) by (destruct (columns df); [easy | discriminate]).
    rewrite (consistencia_formula E df Hcols). eexists. eexists.
    split; [reflexivity|]. unfold Spec.flagged_columns.
    apply in_map, filter_In. now split.
Qed.

(** X16. A Boolean column with at least one non-null value is always
    reported as inconsistent: it takes the numeric branch, its values are
    rendered as [True] and [False], none of which matches the number
    pattern, so its name is in the Consistência diagnostic of every
    dataset that holds it. *)
Theorem boolean_column_is_inconsistent (E : pandas_env) (df : dataframe)
    (c : column) (vals : list (option Q)) :
  (forall q, num_str E KBool q = "True" \/ num_str E KBool q = "False") ->
  In c (columns df) ->
  col_data c = Numeric KBool vals -> dropna vals <> [] ->
  inconsistente E c = Ok true
  /\ exists z d, consistencia E df = Ok (z, d) /\ In (col_name c) d.
Proof. exact (booleana_diagnostic E df c vals). Qed.

Lemma boolean_column_is_inconsistent_witness :
  inconsistente first_positions ativo = Ok true
  /\ exists z d, consistencia first_positions so_booleana = Ok (z, d)
                 /\ In (col_name ativo) d.
Proof.
  apply (boolean_column_is_inconsistent first_positions so_booleana ativo
           [Some 1%Q; Some 0%Q; Some 1%Q]).
  - intros q. cbn. destruct (Qeq_bool q 0); [right | left]; reflexivity.
  - left. reflexivity.
  - reflexivity.
  - discriminate.
Defined.

(* ================================================================== *)
(** * The counters of Integridade *)
(* ================================================================== *)

Lemma checks_checar_numerica (s : string) (vals : list (option Q)) :
  (col_checks (checar_numerica s vals tally0) <= 2)%nat.
Proof.
  unfold checar_numerica.
  repeat match goal with
         | |- context [if ?b then _ else _] => destruct b
         end; cbn; lia.
Qed.

Lemma checks_checar_capitalizacao (smp : list string) :
  col_checks (checar_capitalizacao smp tally0) = 1%nat.
Proof.
  unfold checar_capitalizacao.
  destruct (existsb Text.islower smp || existsb Text.isupper smp); reflexivity.
Qed.

Lemma checks_checar_codigos (col s : string) (smp : list string) (t : tally) :
  (col_checks t <= col_checks (checar_codigos col s smp t) <= col_checks t + 1)%nat.
Proof.
  unfold checar_codigos.
  destruct (Text.contains_any document_keywords s); [|lia].
  destruct (Text.contains_any id_keywords s).
  - destruct (1 <? _)%nat; cbn; lia.
  - destruct (expected_length s); [|cbn; lia].
    destruct (negb _); cbn; lia.
Qed.

Lemma checks_checar_datas (s : string) (smp : list string) (t : tally) :
  (col_checks t <= col_checks (checar_datas s smp t) <= col_checks t + 1)%nat.
Proof.
  unfold checar_datas.
  destruct (Text.contains_any date_keywords s); [|lia].
  destruct (flt _ _); cbn; lia.
Qed.

Lemma column_tally_counts (E : pandas_env) (c : column) :
  (col_checks (Spec.column_tally E c) <= 3)%nat
  /\ (forall vals, col_data c = Object vals ->
      (1 <= col_checks (Spec.column_tally E c))%nat).
Proof.
  unfold Spec.column_tally. destruct (col_data c) as [k vals|vals|vals|vals].
  - split; [|discriminate].
    pose proof (checks_checar_numerica (Text.lower (col_name c)) vals). lia.
  - set (smp := Spec.fixed_seed_sample E vals).
    pose proof (checks_checar_capitalizacao smp) as H1.
    pose proof (checks_checar_codigos (col_name c) (Text.lower (col_name c)) smp
                  (checar_capitalizacao smp tally0)) as H2.
    pose proof (checks_checar_datas (Text.lower (col_name c)) smp
                  (checar_codigos (col_name c) (Text.lower (col_name c)) smp
                     (checar_capitalizacao smp tally0))) as H3.
    split; [lia|]. intros _ _. lia.
  - split; [cbn; lia | discriminate].
  - split; [cbn; lia | discriminate].
Qed.

(** X17. The counters of one column of the Integridade loop: every check
    counted either passed or left exactly one problem text, so
    [col_checks = col_passes + len(col_problemas)]; no column has more than
    three checks, a text column has at least one, and the global random
    generator is left as it was. *)
Theorem checar_coluna_counters (E : pandas_env) (c : column) (g : rng E) :
  col_checks (fst (checar_coluna E c g))
  = (col_passes (fst (checar_coluna E c g))
     + List.length (col_problemas (fst (checar_coluna E c g))))%nat
  /\ (col_checks (fst (checar_coluna E c g)) <= 3)%nat
  /\ (forall vals, col_data c = Object vals ->
      (1 <= col_checks (fst (checar_coluna E c g)))%nat)
  /\ snd (checar_coluna E c g) = g.
Proof.
  rewrite checar_coluna_tally. cbn [fst snd].
  destruct (column_tally_counts E c) as [H3 H1].
  split; [exact (balanced_column_tally E c)|]. split; [exact H3|].
  split; [exact H1 | reflexivity].
Qed.

Lemma filter_skip {A : Type} (p : A -> bool) (xs ys : list A) (c : A) :
  p c = false -> filter p (xs ++ c :: ys) = filter p (xs ++ ys).
Proof.
  intros H. rewrite !filter_app. cbn [filter]. now rewrite H.
Qed.

Lemma integridade_skips (E : pandas_env) (antes depois : list column)
    (c : column) (n n' : nat) (g : rng E) :
  col_checks (fst (checar_coluna E c g)) = 0%nat ->
  integridade E {| nrows := n; columns := antes ++ c :: depois |} g
  = integridade E {| nrows := n'; columns := antes ++ depois |} g.
Proof.
  rewrite checar_coluna_tally. cbn [fst]. intros H0.
  rewrite !integridade_formula.
  unfold Spec.integrity_score, Spec.integrity_findings. cbn [columns].
  assert (Hk : Spec.has_checks E c = false).
  { unfold Spec.has_checks. rewrite H0. reflexivity. }
  assert (Hf : Spec.has_failed_check E c = false).
  { unfold Spec.has_failed_check. rewrite H0. apply Nat.ltb_ge. lia. }
  now rewrite (filter_skip _ _ _ _ Hk), (filter_skip _ _ _ _ Hf).
Qed.

(** X18. A column to which no check applies, such as a numeric column
    whose name holds no keyword, leaves Integridade as it is: with the
    column or without it, wherever it stands among the others, the score
    and the list of findings are the same. *)
Theorem integridade_ignores_unchecked_column (E : pandas_env)
    (antes depois : list column) (c : column) (n n' : nat) (g : rng E) :
  col_checks (fst (checar_coluna E c g)) = 0%nat ->
  integridade E {| nrows := n; columns := antes ++ c :: depois |} g
  = integridade E {| nrows := n'; columns := antes ++ depois |} g.
Proof. exact (integridade_skips E antes depois c n n' g). Qed.

Lemma integridade_ignores_unchecked_column_witness :
  col_checks (fst (checar_coluna first_positions idade tt)) = 0%nat
  /\ integridade first_positions
       {| nrows := 3; columns := columns clientes ++ idade :: columns two_equal_rows |} tt
     = integridade first_positions
       {| nrows := 3; columns := columns clientes ++ columns two_equal_rows |} tt.
Proof.
  split; [reflexivity|].
  apply (integridade_ignores_unchecked_column first_positions
           (columns clientes) (columns two_equal_rows) idade 3 3 tt).
  reflexivity.
Defined.

(* ================================================================== *)
(** * Columns of one value under Precisão *)
(* ================================================================== *)

Lemma In_insert_sorted (x y : Q) (l : list Q) :
  In x (insert_sorted y l) -> x = y \/ In x l.
Proof.
  induction l as [|z l IH]; cbn.
  - intros [H|[]]. now left.
  - destruct (Qle_bool y z); cbn.
    + intros [H|H]; [now left | now right].
    + intros [H|H]; [right; now left|].
      destruct (IH H) as [G|G]; [now left | right; now right].
Qed.

Lemma In_sort_values (x : Q) (l : list Q) : In x (sort_values l) -> In x l.
Proof.
  induction l as [|y l IH]; cbn; [easy|].
  intros H. apply In_insert_sorted in H. destruct H as [H|H]; [now left|].
  right. now apply IH.
Qed.

Lemma In_dropna {A : Type} (x : A) (vals : list (option A)) :
  In x (dropna vals) -> In (Some x) vals.
Proof.
  unfold dropna. intros H. apply in_flat_map in H.
  destruct H as [[a|] [Hin Hx]]; [|destruct Hx].
  destruct Hx as [<-|[]]. exact Hin.
Qed.

Lemma quantile_position (n : nat) (q : Q) :
  (0 <= q <= 1)%Q -> (1 <= n)%nat ->
  (Z.to_nat (Qfloor (inject_Z (Z.of_nat (n - 1)) * q)) < n)%nat.
Proof.
  intros [Hq0 Hq1] Hn.
  assert (Hp : (0 <= inject_Z (Z.of_nat (n - 1)))%Q).
  { change 0%Q with (inject_Z 0). rewrite <- Zle_Qle. lia. }
  assert (Hu : (inject_Z (Z.of_nat (n - 1)) * q
                <= inject_Z (Z.of_nat (n - 1)))%Q) by nra.
  apply Qfloor_resp_le in Hu. rewrite Qfloor_Z in Hu. lia.
Qed.

Lemma interpolation_constant (a b f c : Q) :
  (a == c)%Q -> (b == c)%Q -> (a + (b - a) * f == c)%Q.
Proof. intros Ha Hb. rewrite Ha, Hb. ring. Qed.

Lemma quantile_constant (vals : list (option Q)) (c q : Q) :
  (forall v, In (Some v) vals -> (v == c)%Q) -> (0 <= q <= 1)%Q ->
  match quantile vals q with
  | NaN => True
  | Fin x => (x == c)%Q
  end.
Proof.
  intros Hall Hq. unfold quantile.
  assert (Hs : forall x, In x (sort_values (dropna vals)) -> (x == c)%Q).
  { intros x Hx. apply Hall, In_dropna, In_sort_values, Hx. }
  destruct (sort_values (dropna vals)) as [|y ys]; [exact I|].
  set (v := y :: ys) in *. cbv zeta.
  set (pos := (inject_Z (Z.of_nat (List.length v - 1)) * q)%Q).
  assert (Hj : (Z.to_nat (Qfloor pos) < List.length v)%nat).
  { apply quantile_position; [exact Hq | cbn; lia]. }
  set (j := Z.to_nat (Qfloor pos)) in *.
  assert (Ha : (nth j v 0 == c)%Q) by (apply Hs, nth_In, Hj).
  assert (Hb : (nth (S j) v (nth j v 0) == c)%Q).
  { destruct (Nat.lt_ge_cases (S j) (List.length v)) as [L|G].
    - apply Hs, nth_In, L.
    - rewrite nth_overflow by exact G. exact Ha. }
  apply interpolation_constant; assumption.
Qed.

Lemma outliers_constant (vals : list (option Q)) (c : Q) :
  (forall v, In (Some v) vals -> (v == c)%Q) ->
  outliers vals = map (fun _ => false) vals.
Proof.
  intros Hall. unfold outliers.
  pose proof (quantile_constant vals c (1 # 4) Hall ltac:(lra)) as H1.
  pose proof (quantile_constant vals c (3 # 4) Hall ltac:(lra)) as H3.
  apply map_ext_in. intros [x|] Hin; [|reflexivity].
  specialize (Hall x Hin).
  destruct (quantile vals (1 # 4)) as [|q1], (quantile vals (3 # 4)) as [|q3];
    try reflexivity.
  cbn [fsub fmul fadd flift flt fgt].
  rewrite !Qltb_false; [reflexivity | lra | lra].
Qed.

(** X19. A numeric column whose non-null values are all equal has no
    outlier: both quartiles are that value, the bounds coincide with it,
    and no cell is marked; a column without any non-null value has none
    either, its quartiles being NaN. *)
Theorem constant_column_has_no_outliers (vals : list (option Q)) (c : Q) :
  (forall v, In (Some v) vals -> (v == c)%Q) ->
  outliers vals = map (fun _ => false) vals.
Proof. exact (outliers_constant vals c). Qed.

Lemma constant_column_has_no_outliers_witness :
  outliers [Some 7%Q; None; Some (14 # 2)%Q; Some 7%Q]
  = [false; false; false; false].
Proof.
  apply (constant_column_has_no_outliers
           [Some 7%Q; None; Some (14 # 2)%Q; Some 7%Q] 7%Q).
  intros v [H|[H|[H|[H|[]]]]]; try discriminate;
    injection H as <-; reflexivity.
Defined.
